(** * The Python script template: a shallow embedding

    [templates/python-template/script.py] is a command-line scaffold:
    it parses three options, configures logging, checks the interpreter
    version, loads a JSON configuration file and ends in a stub.  What
    there is to verify is its control flow: which exceptions each
    function absorbs and which it lets through, what is logged at which
    level, and which status the process ends with.

    The embedding is a state-and-exception monad over

    - a [World]: everything the script reads from its environment (the
      interpreter version, the command line, the file system, what
      [json.load] and [subprocess.run] answer, and the point at which a
      user interrupt arrives, if one does);
    - a [State]: the logging configuration and the trace of observable
      events (logging calls, tracebacks, spawned processes).

    Standard-library calls are primitives of the monad; their results
    come from the [World]. *)

From Stdlib Require Import ZArith String List Bool Ascii Lia.
Import ListNotations.

#[local] Set Warnings "-register-all".

Open Scope string_scope.
Open Scope Z_scope.

(** * Python values *)

(** A [pathlib.Path], as its sequence of components. *)
Definition Path := list string.

(** [a / name] on paths. *)
Definition path_join (a : Path) (name : string) : Path := (a ++ [name])%list.

(** What [json.load] can build.  A [dict] keeps insertion order, hence
    the association list.  A [str] is a Rocq string, one [ascii] per
    character; a float is kept as its literal. *)
Inductive pyvalue : Type :=
| PNone
| PBool (b : bool)
| PInt (n : Z)
| PFloat (literal : string)
| PStr (s : string)
| PList (items : list pyvalue)
| PDict (items : list (string * pyvalue)).

(** The empty mapping [{}]. *)
Definition empty_dict : pyvalue := PDict [].

Definition is_dict (v : pyvalue) : bool :=
  match v with PDict _ => true | _ => false end.

(** * Exceptions *)

(** The classes the script names, their ancestors, and [Custom] for any
    other class, given with its base. *)
Inductive exn_class : Type :=
| BaseException_
| SystemExit_
| KeyboardInterrupt_
| GeneratorExit_
| Exception_
| OSError_
| FileNotFoundError_
| PermissionError_
| IsADirectoryError_
| ValueError_
| UnicodeError_
| UnicodeDecodeError_
| JSONDecodeError_
| SubprocessError_
| CalledProcessError_
| TypeError_
| Custom (name : string) (base : exn_class).

(** [IOError] is an alias of [OSError] since Python 3.3. *)
Definition IOError_ : exn_class := OSError_.

Fixpoint exn_class_eqb (c d : exn_class) : bool :=
  match c, d with
  | BaseException_, BaseException_
  | SystemExit_, SystemExit_
  | KeyboardInterrupt_, KeyboardInterrupt_
  | GeneratorExit_, GeneratorExit_
  | Exception_, Exception_
  | OSError_, OSError_
  | FileNotFoundError_, FileNotFoundError_
  | PermissionError_, PermissionError_
  | IsADirectoryError_, IsADirectoryError_
  | ValueError_, ValueError_
  | UnicodeError_, UnicodeError_
  | UnicodeDecodeError_, UnicodeDecodeError_
  | JSONDecodeError_, JSONDecodeError_
  | SubprocessError_, SubprocessError_
  | CalledProcessError_, CalledProcessError_
  | TypeError_, TypeError_ => true
  | Custom n b, Custom n' b' => String.eqb n n' && exn_class_eqb b b'
  | _, _ => false
  end.

(** The method resolution order of a class: itself, then its ancestors
    up to [BaseException]. *)
Fixpoint mro (c : exn_class) : list exn_class :=
  match c with
  | BaseException_ => [BaseException_]
  | SystemExit_ => [SystemExit_; BaseException_]
  | KeyboardInterrupt_ => [KeyboardInterrupt_; BaseException_]
  | GeneratorExit_ => [GeneratorExit_; BaseException_]
  | Exception_ => [Exception_; BaseException_]
  | OSError_ => [OSError_; Exception_; BaseException_]
  | FileNotFoundError_ =>
      [FileNotFoundError_; OSError_; Exception_; BaseException_]
  | PermissionError_ =>
      [PermissionError_; OSError_; Exception_; BaseException_]
  | IsADirectoryError_ =>
      [IsADirectoryError_; OSError_; Exception_; BaseException_]
  | ValueError_ => [ValueError_; Exception_; BaseException_]
  | UnicodeError_ => [UnicodeError_; ValueError_; Exception_; BaseException_]
  | UnicodeDecodeError_ =>
      [UnicodeDecodeError_; UnicodeError_; ValueError_; Exception_;
       BaseException_]
  | JSONDecodeError_ =>
      [JSONDecodeError_; ValueError_; Exception_; BaseException_]
  | SubprocessError_ => [SubprocessError_; Exception_; BaseException_]
  | CalledProcessError_ =>
      [CalledProcessError_; SubprocessError_; Exception_; BaseException_]
  | TypeError_ => [TypeError_; Exception_; BaseException_]
  | Custom n b => Custom n b :: mro b
  end.

Definition issubclass (c d : exn_class) : bool :=
  existsb (exn_class_eqb d) (mro c).

(** The operating-system errors the script can meet, by [errno]. *)
Inductive os_error : Type :=
| ENOENT
| EACCES
| EISDIR
| Errno (n : Z).

(** The [OSError] subclass Python raises for an [errno] (PEP 3151). *)
Definition os_error_class (k : os_error) : exn_class :=
  match k with
  | ENOENT => FileNotFoundError_
  | EACCES => PermissionError_
  | EISDIR => IsADirectoryError_
  | Errno _ => OSError_
  end.

(** An exception object: its class and the attributes the script or its
    caller can read. *)
Inductive exn : Type :=
| SystemExit (code : Z)
| KeyboardInterrupt
| OSError (errno : os_error) (filename : Path)
| UnicodeDecodeError (encoding : string) (position : nat)
| JSONDecodeError (msg : string) (pos : nat)
| CalledProcessError (returncode : Z) (cmd : list string)
                     (output stderr : string)
| TypeError (msg : string)
| Error (cls : exn_class) (msg : string).

(** [type(e)]. *)
Definition class_of (e : exn) : exn_class :=
  match e with
  | SystemExit _ => SystemExit_
  | KeyboardInterrupt => KeyboardInterrupt_
  | OSError k _ => os_error_class k
  | UnicodeDecodeError _ _ => UnicodeDecodeError_
  | JSONDecodeError _ _ => JSONDecodeError_
  | CalledProcessError _ _ _ _ => CalledProcessError_
  | TypeError _ => TypeError_
  | Error c _ => c
  end.

Definition isinstance (e : exn) (c : exn_class) : bool :=
  issubclass (class_of e) c.

(** * The environment *)

(** [sys.version_info]: a five-element named tuple. *)
Record VersionInfo : Type := {
  major : Z;
  minor : Z;
  micro : Z;
  releaselevel : string;
  serial : Z
}.

(** Tuple elements, for the comparison [sys.version_info < (3, 8)]. *)
Inductive component : Type :=
| CInt (n : Z)
| CStr (s : string).

Definition as_tuple (v : VersionInfo) : list component :=
  [CInt (major v); CInt (minor v); CInt (micro v);
   CStr (releaselevel v); CInt (serial v)].

Definition component_eqb (x y : component) : bool :=
  match x, y with
  | CInt a, CInt b => a =? b
  | CStr a, CStr b => String.eqb a b
  | _, _ => false
  end.

(** [x < y] on elements; [None] is the [TypeError] of comparing an
    [int] with a [str]. *)
Definition component_ltb (x y : component) : option bool :=
  match x, y with
  | CInt a, CInt b => Some (a <? b)
  | CStr a, CStr b => Some (String.ltb a b)
  | _, _ => None
  end.

(** Python's [<] on tuples: the first position where the two differ
    decides; if there is none, the shorter tuple is the smaller. *)
Fixpoint tuple_ltb (a b : list component) : option bool :=
  match a, b with
  | [], [] => Some false
  | [], _ :: _ => Some true
  | _ :: _, [] => Some false
  | x :: a', y :: b' =>
      if component_eqb x y then tuple_ltb a' b' else component_ltb x y
  end.

(** The command line after [argparse] has split it into occurrences of
    the declared options; [-h/--help] is the option every parser has,
    [MissingValue] is a [--config] with no value after it,
    [Unrecognized] is any other token. *)
Inductive CliArg : Type :=
| FlagVerbose
| FlagDryRun
| OptConfig (p : Path)
| FlagHelp
| MissingValue
| Unrecognized (token : string).

(** What is at a path.  [Inaccessible k] is a path that [stat] cannot
    reach, failing with [k]: a directory on the way that may not be
    searched, a name that is too long. *)
Inductive FileState : Type :=
| Absent
| Directory
| Unreadable
| Regular (content : string)
| Inaccessible (k : os_error).

(** Why [json.loads] gives up on a text that is not a syntax error: an
    integer longer than the interpreter's digit limit, or nesting deeper
    than its recursion limit. *)
Inductive refusal : Type :=
| DigitLimit
| TooDeep.

(** What [json.loads] makes of a text. *)
Inductive ParseResult : Type :=
| Parsed (v : pyvalue)
| Invalid (msg : string) (pos : nat)
| Refused (r : refusal) (msg : string).

(** What happens to a child process.  [out] and [err] are the bytes
    captured from its stdout and stderr, line ends already as text mode
    leaves them. *)
Inductive SpawnResult : Type :=
| CannotStart (k : os_error)
| Completed (status : Z) (out err : string).

(** What a run finds around it.  [home] is the answer of
    [Path.home()]: the runs considered are those of a user with a home
    directory. *)
Record World : Type := {
  version_info : VersionInfo;
  home : Path;
  argv : list CliArg;
  files : Path -> FileState;
  json_loads : string -> ParseResult;
  processes : list string -> option Path -> SpawnResult;
  interrupt : option nat
}.

(** * The observable state *)

Inductive Level : Type := DEBUG | INFO | WARNING | ERROR | CRITICAL.

Definition level_no (l : Level) : Z :=
  match l with
  | DEBUG => 10
  | INFO => 20
  | WARNING => 30
  | ERROR => 40
  | CRITICAL => 50
  end.

(** [Logger.isEnabledFor]: a record passes when its level reaches the
    threshold. *)
Definition enabled (threshold lvl : Level) : bool :=
  level_no threshold <=? level_no lvl.

(** Arguments of a logging call, kept next to the format string as
    [logging] does. *)
Inductive LogArg : Type :=
| AStr (s : string)
| APath (p : Path)
| AExn (e : exn)
| AInt (n : Z).

Inductive Event : Type :=
| LogCall (lvl : Level) (fmt : string) (args : list LogArg) (written : bool)
| PrintExc (e : exn)
| SubprocessRun (cmd : list string) (cwd : option Path)
| Traceback (e : exn).

Record State : Type := {
  ticks : nat;
  root_level : Level;
  root_configured : bool;
  trace : list Event
}.

(** A fresh interpreter: the root logger has no handler and filters at
    [WARNING]. *)
Definition initial_state : State :=
  {| ticks := 0; root_level := WARNING; root_configured := false;
     trace := [] |}.

Definition emit (ev : Event) (st : State) : State :=
  {| ticks := ticks st; root_level := root_level st;
     root_configured := root_configured st;
     trace := (trace st ++ [ev])%list |}.

(** The log records that reach the stream, in order. *)
Definition written_records (tr : list Event) : list (Level * string) :=
  flat_map (fun ev =>
              match ev with
              | LogCall lvl fmt _ true => [(lvl, fmt)]
              | _ => []
              end) tr.

(** Every logging call made, written or not. *)
Definition log_calls (tr : list Event) : list (Level * string * list LogArg) :=
  flat_map (fun ev =>
              match ev with
              | LogCall lvl fmt args _ => [(lvl, fmt, args)]
              | _ => []
              end) tr.

Definition spawned (tr : list Event) : list (list string) :=
  flat_map (fun ev =>
              match ev with
              | SubprocessRun cmd _ => [cmd]
              | _ => []
              end) tr.

(** * The monad *)

Inductive result (A : Type) : Type :=
| Return (a : A)
| Raise (e : exn).

Arguments Return {A} a.
Arguments Raise {A} e.

Definition M (A : Type) : Type := World -> State -> result A * State.

Definition ret {A} (a : A) : M A := fun _ st => (Return a, st).

Definition raise {A} (e : exn) : M A := fun _ st => (Raise e, st).

Definition bind {A B} (m : M A) (k : A -> M B) : M B :=
  fun w st =>
    match m w st with
    | (Return a, st') => k a w st'
    | (Raise e, st') => (Raise e, st')
    end.

Declare Scope py_scope.
Delimit Scope py_scope with py.
Notation "x <- m ;; k" := (bind m (fun x => k))
  (at level 100, m at next level, right associativity) : py_scope.
Notation "m ;; k" := (bind m (fun _ => k))
  (at level 100, right associativity) : py_scope.
Open Scope py_scope.

Definition when (b : bool) (m : M unit) : M unit :=
  if b then m else ret tt.

(** ** try / except *)

(** One [except (C1, ..., Cn) as e:] clause. *)
Definition handler (A : Type) : Type := list exn_class * (exn -> M A).

Definition catches {A} (h : handler A) (e : exn) : bool :=
  existsb (isinstance e) (fst h).

(** The first clause whose classes match runs; with none, the exception
    goes on. *)
Fixpoint dispatch {A} (hs : list (handler A)) (e : exn) : M A :=
  match hs with
  | [] => raise e
  | h :: hs' => if catches h e then snd h e else dispatch hs' e
  end.

Definition try_except {A} (body : M A) (hs : list (handler A)) : M A :=
  fun w st =>
    match body w st with
    | (Return a, st') => (Return a, st')
    | (Raise e, st') => dispatch hs e w st'
    end.

(** ** Primitives *)

(** One more call made. *)
Definition bump (st : State) : State :=
  {| ticks := S (ticks st); root_level := root_level st;
     root_configured := root_configured st; trace := trace st |}.

(** Every call into the standard library is a point where a pending
    user interrupt can surface: the [k]-th such call of a run raises
    [KeyboardInterrupt] instead of running when the world delivers the
    interrupt at [k].  The interrupt is delivered at the entry of a
    call; a signal that lands inside a call, after a part of its
    effect, is outside the model. *)
Definition tick : M unit :=
  fun w st =>
    match interrupt w with
    | Some k => if Nat.eqb k (ticks st) then (Raise KeyboardInterrupt, bump st)
                else (Return tt, bump st)
    | None => (Return tt, bump st)
    end.

(** [logger.debug/info/warning/error(fmt, *args)]. *)
Definition log (lvl : Level) (fmt : string) (args : list LogArg) : M unit :=
  tick ;;
  fun _ st =>
    (Return tt, emit (LogCall lvl fmt args (enabled (root_level st) lvl)) st).

(** [logging.basicConfig(level=lvl, ...)]: configures the root logger
    unless it already has a handler. *)
Definition basicConfig (lvl : Level) : M unit :=
  tick ;;
  fun _ st =>
    if root_configured st then (Return tt, st)
    else (Return tt,
          {| ticks := ticks st; root_level := lvl; root_configured := true;
             trace := trace st |}).

(** [traceback.print_exc()] inside a handler for [e]. *)
Definition print_exc (e : exn) : M unit :=
  tick ;; fun _ st => (Return tt, emit (PrintExc e) st).

(** The errors of [stat] that [Path.exists()] takes for absence:
    [ENOENT], [EBADF], [ENOTDIR] and [ELOOP]. *)
Definition ignored (k : os_error) : bool :=
  match k with
  | ENOENT => true
  | EACCES | EISDIR => false
  | Errno n => (n =? 2) || (n =? 9) || (n =? 20) || (n =? 40)
  end.

(** [Path.exists()], as [pathlib] has it from Python 3.8 to 3.13: any
    other error of [stat] is raised. *)
Definition path_exists (p : Path) : M bool :=
  tick ;;
  fun w st =>
    match files w p with
    | Absent => (Return false, st)
    | Inaccessible k =>
        if ignored k then (Return false, st) else (Raise (OSError k p), st)
    | _ => (Return true, st)
    end.

(** [open(p, 'r', encoding='utf-8')]; the file object is modelled by the
    bytes it will read. *)
Definition open_read (p : Path) : M string :=
  tick ;;
  fun w st =>
    match files w p with
    | Absent => (Raise (OSError ENOENT p), st)
    | Directory => (Raise (OSError EISDIR p), st)
    | Unreadable => (Raise (OSError EACCES p), st)
    | Regular content => (Return content, st)
    | Inaccessible k => (Raise (OSError k p), st)
    end.

(** *** Strict UTF-8 *)

Definition in_range (lo hi b : N) : bool := ((lo <=? b) && (b <=? hi))%N.

Inductive utf8_state : Type :=
| Lead
| Continuation (more : nat) (lo hi : N).

(** After a lead byte: the range of the first continuation byte and how
    many more follow it (Unicode, table 3-7). *)
Definition utf8_lead (b : N) : option utf8_state :=
  if (b <=? 127)%N then Some Lead
  else if in_range 194 223 b then Some (Continuation 0 128 191)
  else if (b =? 224)%N then Some (Continuation 1 160 191)
  else if in_range 225 236 b then Some (Continuation 1 128 191)
  else if (b =? 237)%N then Some (Continuation 1 128 159)
  else if in_range 238 239 b then Some (Continuation 1 128 191)
  else if (b =? 240)%N then Some (Continuation 2 144 191)
  else if in_range 241 243 b then Some (Continuation 2 128 191)
  else if (b =? 244)%N then Some (Continuation 2 128 143)
  else None.

(** The position of the first byte sequence that is not UTF-8, if any. *)
Fixpoint utf8_scan (s : utf8_state) (start pos : nat) (bs : list N)
  : option nat :=
  match bs with
  | [] => match s with Lead => None | Continuation _ _ _ => Some start end
  | b :: bs' =>
      match s with
      | Lead =>
          match utf8_lead b with
          | Some s' => utf8_scan s' pos (S pos) bs'
          | None => Some pos
          end
      | Continuation more lo hi =>
          if in_range lo hi b then
            match more with
            | O => utf8_scan Lead (S pos) (S pos) bs'
            | S more' => utf8_scan (Continuation more' 128 191) start (S pos) bs'
            end
          else Some start
      end
  end.

Definition utf8_error (content : string) : option nat :=
  utf8_scan Lead 0%nat 0%nat (map N_of_ascii (list_ascii_of_string content)).

(** The exception of a refusal: a plain [ValueError] for the digit
    limit, a [RecursionError] for the depth. *)
Definition RecursionError_ : exn_class :=
  Custom "RecursionError" (Custom "RuntimeError" Exception_).

Definition refusal_exn (r : refusal) (msg : string) : exn :=
  match r with
  | DigitLimit => Error ValueError_ msg
  | TooDeep => Error RecursionError_ msg
  end.

(** [json.load(f)]: reads and decodes the whole file, then parses. *)
Definition json_load (content : string) : M pyvalue :=
  tick ;;
  fun w st =>
    match utf8_error content with
    | Some pos => (Raise (UnicodeDecodeError "utf-8" pos), st)
    | None =>
        match json_loads w content with
        | Parsed v => (Return v, st)
        | Invalid msg pos => (Raise (JSONDecodeError msg pos), st)
        | Refused r msg => (Raise (refusal_exn r msg), st)
        end
    end.

(** The result object of [subprocess.run]. *)
Record CompletedProcess : Type := {
  cp_args : list string;
  cp_returncode : Z;
  cp_stdout : string;
  cp_stderr : string
}.

(** [subprocess.run(cmd, cwd=cwd, capture_output=True, text=True,
    check=True)].  With [text=True] the captured bytes are decoded,
    stdout first, before the exit status is looked at; the encoding is
    the locale's, UTF-8 here, as on the Ubuntu systems the scripts are
    written for.  The command is taken to have a first word, the
    program, which is also the file name of the [OSError] when the
    process cannot start. *)
Definition subprocess_run (cmd : list string) (cwd : option Path)
  : M CompletedProcess :=
  tick ;;
  fun w st =>
    let st' := emit (SubprocessRun cmd cwd) st in
    match processes w cmd cwd with
    | CannotStart k => (Raise (OSError k (firstn 1 cmd)), st')
    | Completed status out err =>
        match utf8_error out, utf8_error err with
        | Some pos, _ | None, Some pos =>
            (Raise (UnicodeDecodeError "utf-8" pos), st')
        | None, None =>
            if status =? 0 then
              (Return {| cp_args := cmd; cp_returncode := status;
                         cp_stdout := out; cp_stderr := err |}, st')
            else (Raise (CalledProcessError status cmd out err), st')
        end
    end.

(** [type(v).__name__]. *)
Definition type_name (v : pyvalue) : string :=
  match v with
  | PNone => "NoneType"
  | PBool _ => "bool"
  | PInt _ => "int"
  | PFloat _ => "float"
  | PStr _ => "str"
  | PList _ => "list"
  | PDict _ => "dict"
  end.

(** The message of the [TypeError] that [len] raises. *)
Definition no_len (v : pyvalue) : string :=
  "object of type '" ++ type_name v ++ "' has no len()".

(** [len(v)]. *)
Definition py_len (v : pyvalue) : M Z :=
  match v with
  | PStr s => ret (Z.of_nat (String.length s))
  | PList items => ret (Z.of_nat (List.length items))
  | PDict items => ret (Z.of_nat (List.length items))
  | _ => raise (TypeError (no_len v))
  end.

(** The characters of a decoded text, each as the bytes that encode
    it: a byte from [0x80] to [0xBF] continues the character before
    it. *)
Fixpoint characters (cur : list ascii) (s : list ascii)
  : list (list ascii) :=
  match s with
  | [] => match cur with [] => [] | _ => [rev cur] end
  | c :: s' =>
      if in_range 128 191 (N_of_ascii c) then characters (c :: cur) s'
      else match cur with
           | [] => characters [c] s'
           | _ => rev cur :: characters [c] s'
           end
  end.

(** [str.isspace()] of one character: U+0009 to U+000D, U+001C to
    U+0020, U+0085, U+00A0, U+1680, U+2000 to U+200A, U+2028, U+2029,
    U+202F, U+205F and U+3000. *)
Definition is_space (c : list ascii) : bool :=
  match map N_of_ascii c with
  | [b] => in_range 9 13 b || in_range 28 32 b
  | [a; b] => (a =? 194)%N && ((b =? 133)%N || (b =? 160)%N)
  | [a; b; c] =>
      ((a =? 225)%N && (b =? 154)%N && (c =? 128)%N)
      || ((a =? 226)%N && (b =? 128)%N
          && (in_range 128 138 c || in_range 168 169 c || (c =? 175)%N))
      || ((a =? 226)%N && (b =? 129)%N && (c =? 159)%N)
      || ((a =? 227)%N && (b =? 128)%N && (c =? 128)%N)
  | _ => false
  end.

Fixpoint lstrip (s : list (list ascii)) : list (list ascii) :=
  match s with
  | c :: s' => if is_space c then lstrip s' else s
  | [] => []
  end.

(** [str.strip()]: drops leading and trailing whitespace. *)
Definition strip (s : string) : string :=
  string_of_list_ascii
    (concat
       (rev (lstrip (rev (lstrip (characters [] (list_ascii_of_string s))))))).

(** * The script *)

(** ** [setup_logging] *)

Definition setup_logging (verbose : bool) : M unit :=
  let level := if verbose then DEBUG else INFO in
  basicConfig level.

(** ** [check_requirements] *)

(** [sys.version_info < t]. *)
Definition version_info_lt (t : list component) : M bool :=
  fun w st =>
    match tuple_ltb (as_tuple (version_info w)) t with
    | Some b => (Return b, st)
    | None => (Raise (TypeError "'<' not supported"), st)
    end.

Definition check_requirements : M bool :=
  too_old <- version_info_lt [CInt 3; CInt 8] ;;
  if too_old then
    log ERROR "Python 3.8 or higher is required" [] ;;
    ret false
  else
    log DEBUG "All requirements satisfied" [] ;;
    ret true.

(** ** [run_command] *)

(** [e.stderr]. *)
Definition attr_stderr (e : exn) : M string :=
  match e with
  | CalledProcessError _ _ _ err => ret err
  | _ => raise (Error (Custom "AttributeError" Exception_) "stderr")
  end.

Definition run_command (command : list string) (cwd : option Path)
  : M CompletedProcess :=
  log DEBUG "Running command: %s" [AStr (String.concat " " command)] ;;
  try_except
    (result <- subprocess_run command cwd ;;
     log DEBUG "Command output: %s" [AStr (strip (cp_stdout result))] ;;
     ret result)
    [ ([CalledProcessError_],
       fun e =>
         log ERROR "Command failed: %s" [AExn e] ;;
         err <- attr_stderr e ;;
         log ERROR "stderr: %s" [AStr err] ;;
         raise e) ].

(** ** [load_config] *)

Definition load_config (config_path : Path) : M pyvalue :=
  found <- path_exists config_path ;;
  if negb found then
    log WARNING "Configuration file %s not found, using defaults"
        [APath config_path] ;;
    ret empty_dict
  else
    try_except
      (f <- open_read config_path ;;
       config <- json_load f ;;
       log DEBUG "Loaded configuration from %s" [APath config_path] ;;
       ret config)
      [ ([JSONDecodeError_],
         fun e =>
           log ERROR "Invalid JSON in configuration file %s: %s"
               [APath config_path; AExn e] ;;
           ret empty_dict);
        ([OSError_; IOError_],
         fun e =>
           log ERROR "Error reading configuration file %s: %s"
               [APath config_path; AExn e] ;;
           ret empty_dict) ].

(** ** [main] *)

(** The namespace [parse_args] returns. *)
Record Args : Type := {
  verbose : bool;
  dry_run : bool;
  config : Path
}.

(** The default of [--config]:
    [Path.home() / '.config' / '{{SCRIPT_NAME}}.json']. *)
Definition default_config (w : World) : Path :=
  path_join (path_join (home w) ".config") "{{SCRIPT_NAME}}.json".

(** The actions of the declared options, left to right: the two
    [store_true] flags, [--config] storing its last value, the built-in
    help leaving at once with status 0, a missing value leaving at once
    with status 2.  Tokens no option claims are reported at the end,
    with status 2. *)
Fixpoint parse_tokens (ts : list CliArg) (a : Args) (extras : bool)
  : result Args :=
  match ts with
  | [] => if extras then Raise (SystemExit 2) else Return a
  | FlagVerbose :: ts' =>
      parse_tokens ts'
        {| verbose := true; dry_run := dry_run a; config := config a |} extras
  | FlagDryRun :: ts' =>
      parse_tokens ts'
        {| verbose := verbose a; dry_run := true; config := config a |} extras
  | OptConfig p :: ts' =>
      parse_tokens ts'
        {| verbose := verbose a; dry_run := dry_run a; config := p |} extras
  | FlagHelp :: _ => Raise (SystemExit 0)
  | MissingValue :: _ => Raise (SystemExit 2)
  | Unrecognized _ :: ts' => parse_tokens ts' a true
  end.

Definition parse_args : M Args :=
  tick ;;
  fun w st =>
    (parse_tokens (argv w)
       {| verbose := false; dry_run := false; config := default_config w |}
       false,
     st).

(** The statements inside [try:]. *)
Definition main_body (args : Args) : M Z :=
  ok <- check_requirements ;;
  if negb ok then
    log ERROR "Requirements check failed" [] ;;
    ret 1
  else
    config <- load_config (config args) ;;
    n <- py_len config ;;
    log DEBUG "Loaded config with %d entries" [AInt n] ;;
    when (dry_run args)
         (log INFO "DRY RUN MODE - No changes will be made" []) ;;
    log INFO "Script logic not yet implemented" [] ;;
    log INFO "{{SCRIPT_NAME}} completed successfully" [] ;;
    ret 0.

(** The three [except] clauses of [main]. *)
Definition main_handlers (args : Args) : list (handler Z) :=
  [ ([KeyboardInterrupt_],
     fun _ =>
       log WARNING "Script interrupted by user" [] ;;
       ret 130);
    ([OSError_; ValueError_],
     fun e =>
       log ERROR "Handled error: %s" [AExn e] ;;
       when (verbose args) (print_exc e) ;;
       ret 1);
    ([Exception_],
     fun e =>
       log ERROR "Unexpected error: %s" [AExn e] ;;
       when (verbose args) (print_exc e) ;;
       raise e) ].

(** The [try] statement of [main] around any protected block. *)
Definition main_try (args : Args) (body : M Z) : M Z :=
  try_except body (main_handlers args).

Definition main : M Z :=
  args <- parse_args ;;
  setup_logging (verbose args) ;;
  log INFO "Starting {{SCRIPT_NAME}}" [] ;;
  main_try args (main_body args).

(** What [main] does before it enters [try:]. *)
Definition prelude : M Args :=
  args <- parse_args ;;
  setup_logging (verbose args) ;;
  log INFO "Starting {{SCRIPT_NAME}}" [] ;;
  ret args.

(** ** The process *)

(** [sys.exit(status)]. *)
Definition sys_exit (status : Z) : M Z :=
  tick ;; raise (SystemExit status).

(** [sys.exit(m())]. *)
Definition exit_with (m : M Z) : M Z :=
  status <- m ;;
  sys_exit status.

(** [if __name__ == '__main__': sys.exit(main())]. *)
Definition script : M Z := exit_with main.

(** How a process ends: with an exit status, or killed by a signal. *)
Inductive Termination : Type :=
| Exited (status : Z)
| Killed (signal : Z).

Definition SIGINT : Z := 2.

(** What the interpreter does with the exception that leaves a program:
    [SystemExit] sets the status, of which the system keeps eight bits;
    anything else is reported with a traceback and ends with status 1,
    except that since Python 3.8 an uncaught [KeyboardInterrupt] makes
    the interpreter kill itself with [SIGINT]. *)
Definition interpreter_exit (w : World) (r : result Z) (st : State)
  : Termination * State :=
  match r with
  | Return _ => (Exited 0, st)
  | Raise (SystemExit status) => (Exited (Z.land status 255), st)
  | Raise KeyboardInterrupt =>
      (match tuple_ltb (as_tuple (version_info w)) [CInt 3; CInt 8] with
       | Some false => Killed SIGINT
       | _ => Exited 1
       end,
       emit (Traceback KeyboardInterrupt) st)
  | Raise e => (Exited 1, emit (Traceback e) st)
  end.

(** A program run to its end from a given state. *)
Definition finish (program : M Z) (w : World) (st : State)
  : Termination * State :=
  let (r, st') := program w st in
  interpreter_exit w r st'.

(** Running a program in a fresh interpreter. *)
Definition run (program : M Z) (w : World) : Termination * State :=
  finish program w initial_state.

(** * Sample worlds *)

Definition py3_11 : VersionInfo :=
  {| major := 3; minor := 11; micro := 2; releaselevel := "final";
     serial := 0 |}.

Definition py3_7 : VersionInfo :=
  {| major := 3; minor := 7; micro := 9; releaselevel := "final";
     serial := 0 |}.

Definition path_eqb (p q : Path) : bool :=
  if list_eq_dec string_dec p q then true else false.

(** A file system with one entry. *)
Definition one_file (p : Path) (f : FileState) : Path -> FileState :=
  fun q => if path_eqb p q then f else Absent.

(** The character [U+0022]. *)
Definition quote : string := String (ascii_of_nat 34) EmptyString.

(** The text [{"timeout": 30}]. *)
Definition timeout_json : string :=
  "{" ++ quote ++ "timeout" ++ quote ++ ": 30}".

(** The text [{"a": 1, "a": 2}]. *)
Definition duplicate_json : string :=
  "{" ++ quote ++ "a" ++ quote ++ ": 1, " ++ quote ++ "a" ++ quote ++ ": 2}".

(** The text [{"n": 10...0}], its integer written with 4301 digits. *)
Definition long_integer_json : string :=
  "{" ++ quote ++ "n" ++ quote ++ ": 1"
  ++ string_of_list_ascii (repeat "0"%char 4300) ++ "}".

(** A parser that answers for five documents as Python's does (a
    repeated key keeps its last value; an integer of more than 4300
    digits is refused) and rejects the rest. *)
Definition sample_json (text : string) : ParseResult :=
  if String.eqb text timeout_json then Parsed (PDict [("timeout", PInt 30)])
  else if String.eqb text "[1, 2]" then Parsed (PList [PInt 1; PInt 2])
  else if String.eqb text "42" then Parsed (PInt 42)
  else if String.eqb text duplicate_json then Parsed (PDict [("a", PInt 2)])
  else if String.eqb text long_integer_json then
    Refused DigitLimit
      "Exceeds the limit (4300 digits) for integer string conversion"
  else Invalid "Expecting value" 0.

(** Two commands: [true] succeeds, anything else fails with status 1. *)
Definition sample_processes (cmd : list string) (cwd : option Path)
  : SpawnResult :=
  match cmd with
  | ["true"] => Completed 0 "" ""
  | [] => CannotStart ENOENT
  | _ => Completed 1 "partial" "No such file or directory"
  end.

Definition sample_world (v : VersionInfo) (args : list CliArg)
           (fs : Path -> FileState) (irq : option nat) : World :=
  {| version_info := v; home := ["home"; "user"]; argv := args;
     files := fs; json_loads := sample_json;
     processes := sample_processes; interrupt := irq |}.

(** No arguments, no configuration file, a supported interpreter. *)
Definition plain_world : World :=
  sample_world py3_11 [] (fun _ => Absent) None.

(** A run with [--config settings.json], the file holding [content]. *)
Definition config_world (content : string) : World :=
  sample_world py3_11 [OptConfig ["settings.json"]]
    (one_file ["settings.json"] (Regular content)) None.

(** A configuration file that is not UTF-8: the single byte [0xFF]. *)
Definition latin1_world : World :=
  config_world (String (ascii_of_nat 255) "").

(** The namespace of a run with [--config settings.json]. *)
Definition config_args : Args :=
  {| verbose := false; dry_run := false; config := ["settings.json"] |}.

(** A run with [--dry-run] under interpreter [v]. *)
Definition dry_run_world (v : VersionInfo) : World :=
  sample_world v [FlagDryRun] (fun _ => Absent) None.

(** A plain run under interpreter [v] that is interrupted at call [k]. *)
Definition interrupted_world (v : VersionInfo) (k : nat) : World :=
  sample_world v [] (fun _ => Absent) (Some k).


(** * The pairs a file writes down *)

(** What a JSON object text says, read by the grammar of JSON and not
    by Python's parser: its members in the order written.  The reader
    covers the objects whose keys are plain ASCII without escapes and
    whose values are integers, and gives [None] for any other text. *)

Definition json_space (c : ascii) : bool :=
  let n := N_of_ascii c in ((n =? 32) || (n =? 9) || (n =? 10) || (n =? 13))%N.

Fixpoint skip_space (s : list ascii) : list ascii :=
  match s with
  | c :: s' => if json_space c then skip_space s' else s
  | [] => []
  end.

Definition is_char (n : N) (c : ascii) : bool := (N_of_ascii c =? n)%N.

Definition plain_char (c : ascii) : bool :=
  let n := N_of_ascii c in
  ((32 <=? n) && (n <=? 126) && negb (n =? 34) && negb (n =? 92))%N.

(** The characters up to the closing quote. *)
Fixpoint read_key (s acc : list ascii) : option (string * list ascii) :=
  match s with
  | [] => None
  | c :: s' =>
      if is_char 34 c then Some (string_of_list_ascii (rev acc), s')
      else if plain_char c then read_key s' (c :: acc)
      else None
  end.

Definition digit (c : ascii) : option Z :=
  let n := N_of_ascii c in
  if ((48 <=? n) && (n <=? 57))%N then Some (Z.of_N n - 48) else None.

Fixpoint read_digits (s : list ascii) (acc : Z) : Z * list ascii :=
  match s with
  | c :: s' =>
      match digit c with
      | Some d => read_digits s' (10 * acc + d)
      | None => (acc, s)
      end
  | [] => (acc, [])
  end.

(** An integer: an optional minus sign, then [0] alone or a digit
    other than [0] followed by digits. *)
Definition read_int (s : list ascii) : option (Z * list ascii) :=
  let (negative, s1) :=
    match s with
    | c :: s' => if is_char 45 c then (true, s') else (false, s)
    | [] => (false, [])
    end in
  match s1 with
  | c :: s2 =>
      match digit c with
      | Some 0 => Some (0, s2)
      | Some d =>
          let (n, rest) := read_digits s2 d in
          Some (if negative then - n else n, rest)
      | None => None
      end
  | [] => None
  end.

Definition only_space (s : list ascii) : bool :=
  match skip_space s with [] => true | _ => false end.

(** The members from the opening quote of a key to the closing brace. *)
Fixpoint read_members (fuel : nat) (s : list ascii)
         (acc : list (string * pyvalue)) : option (list (string * pyvalue)) :=
  match fuel with
  | O => None
  | S fuel' =>
      match skip_space s with
      | q :: s1 =>
          if is_char 34 q then
            match read_key s1 [] with
            | Some (key, s2) =>
                match skip_space s2 with
                | c :: s3 =>
                    if is_char 58 c then
                      match read_int (skip_space s3) with
                      | Some (n, s4) =>
                          match skip_space s4 with
                          | d :: s5 =>
                              if is_char 44 d then
                                read_members fuel' s5 ((key, PInt n) :: acc)
                              else if is_char 125 d && only_space s5 then
                                Some (rev ((key, PInt n) :: acc))
                              else None
                          | [] => None
                          end
                      | None => None
                      end
                    else None
                | [] => None
                end
            | None => None
            end
          else None
      | [] => None
      end
  end.

Definition written_pairs (content : string) : option (list (string * pyvalue)) :=
  match skip_space (list_ascii_of_string content) with
  | c :: s =>
      if is_char 123 c then
        match skip_space s with
        | d :: s' =>
            if is_char 125 d then (if only_space s' then Some [] else None)
            else read_members (List.length s) s []
        | [] => None
        end
      else None
  | [] => None
  end.

(** * Notions used in the statements *)

(** The interpreter is older than Python 3.8. *)
Definition below_minimum (v : VersionInfo) : Prop :=
  major v < 3 \/ (major v = 3 /\ minor v < 8).

(** Values [len] accepts. *)
Definition sized (v : pyvalue) : bool :=
  match v with
  | PStr _ | PList _ | PDict _ => true
  | _ => false
  end.

(** The configuration at [p] can be loaded and counted: [exists]
    gives an answer, and there is no regular file there to read, or
    that file is UTF-8, the parser does not refuse it, and it does not
    parse to a value without a length. *)
Definition config_loads (w : World) (p : Path) : bool :=
  match files w p with
  | Regular content =>
      match utf8_error content with
      | Some _ => false
      | None =>
          match json_loads w content with
          | Parsed v => sized v
          | Invalid _ _ => true
          | Refused _ _ => false
          end
      end
  | Inaccessible k => ignored k
  | _ => true
  end.

(** The state in which a fresh run enters [try:]: three calls made,
    logging configured, the start message written. *)
Definition at_try (args : Args) : State :=
  {| ticks := 3;
     root_level := if verbose args then DEBUG else INFO;
     root_configured := true;
     trace := [LogCall INFO "Starting {{SCRIPT_NAME}}" [] true] |}.

(** What a handler of [main] prints besides its log record. *)
Definition printed (args : Args) (e : exn) : list Event :=
  if verbose args then [PrintExc e] else [].

(** The namespace before any option is seen. *)
Definition default_args (w : World) : Args :=
  {| verbose := false; dry_run := false; config := default_config w |}.

(** [m] never swallows a user interrupt: its clock only advances, and
    when the interrupt falls within the calls [m] makes, [m] ends by
    raising [KeyboardInterrupt]. *)
Definition interruptible {A} (m : M A) : Prop :=
  forall w st k r st',
    interrupt w = Some k ->
    m w st = (r, st') ->
    (ticks st <= ticks st')%nat /\
    ((ticks st <= k < ticks st')%nat -> r = Raise KeyboardInterrupt).

(** The clauses [hs] let an interrupt through and are themselves
    interruptible. *)
Definition transparent {A} (hs : list (handler A)) : Prop :=
  Forall (fun h => catches h KeyboardInterrupt = false
                   /\ forall e, interruptible (snd h e)) hs.

(** Left alone by the user, [m] raises nothing but errors, that is,
    instances of [Exception]. *)
Definition raises_errors {A} (m : M A) : Prop :=
  forall w st e st',
    interrupt w = None ->
    m w st = (Raise e, st') -> isinstance e Exception_ = true.

(** [m] starts no child process. *)
Definition spawns_nothing {A} (m : M A) : Prop :=
  forall w st r st',
    m w st = (r, st') -> spawned (trace st') = spawned (trace st).

(** The log of a plain run as the specification lists it. *)
Definition listed_sequence : list (Level * string) :=
  [ (INFO, "Starting {{SCRIPT_NAME}}");
    (DEBUG, "All requirements satisfied");
    (WARNING, "Configuration file %s not found, using defaults");
    (INFO, "Script logic not yet implemented");
    (INFO, "{{SCRIPT_NAME}} completed successfully") ].

(** The log a plain run writes. *)
Definition plain_sequence : list (Level * string) :=
  [ (INFO, "Starting {{SCRIPT_NAME}}");
    (WARNING, "Configuration file %s not found, using defaults");
    (INFO, "Script logic not yet implemented");
    (INFO, "{{SCRIPT_NAME}} completed successfully") ].


(** * Notions used in the further properties *)

(** The threshold [setup_logging] selects. *)
Definition threshold (args : Args) : Level :=
  if verbose args then DEBUG else INFO.

(** Every logging call among [evs] was filtered at threshold [l]. *)
Definition filtered_at (l : Level) (evs : list Event) : Prop :=
  Forall (fun ev =>
            match ev with
            | LogCall lvl _ _ written => written = enabled l lvl
            | _ => True
            end) evs.

(** [m] leaves the logging configuration alone and only appends to the
    trace, its logging calls filtered at the threshold in force. *)
Definition steady {A} (m : M A) : Prop :=
  forall w st r st',
    m w st = (r, st') ->
    root_level st' = root_level st
    /\ root_configured st' = root_configured st
    /\ exists evs, trace st' = (trace st ++ evs)%list
                   /\ filtered_at (root_level st) evs.

(** Tokens that [parse_args] accepts. *)
Definition accepted (t : CliArg) : bool :=
  match t with
  | FlagVerbose | FlagDryRun | OptConfig _ => true
  | FlagHelp | MissingValue | Unrecognized _ => false
  end.

Definition is_verbose (t : CliArg) : bool :=
  match t with FlagVerbose => true | _ => false end.

Definition is_dry_run (t : CliArg) : bool :=
  match t with FlagDryRun => true | _ => false end.

(** The value of the last [--config] on the command line, [d] without
    one. *)
Fixpoint last_config (ts : list CliArg) (d : Path) : Path :=
  match ts with
  | [] => d
  | OptConfig p :: ts' => last_config ts' p
  | _ :: ts' => last_config ts' d
  end.

(** The trace of a run that finds no configuration file and completes. *)
Definition completed_trace (args : Args) : list Event :=
  ([ LogCall INFO "Starting {{SCRIPT_NAME}}" [] true;
     LogCall DEBUG "All requirements satisfied" [] (verbose args);
     LogCall WARNING "Configuration file %s not found, using defaults"
       [APath (config args)] true;
     LogCall DEBUG "Loaded config with %d entries" [AInt 0] (verbose args) ]
   ++ (if dry_run args
       then [LogCall INFO "DRY RUN MODE - No changes will be made" [] true]
       else [])
   ++ [ LogCall INFO "Script logic not yet implemented" [] true;
        LogCall INFO "{{SCRIPT_NAME}} completed successfully" [] true ])%list.

(** A plain run with the given options on Python 3.11. *)
Definition options_world (args : list CliArg) : World :=
  sample_world py3_11 args (fun _ => Absent) None.

(** A world in which no program can be started. *)
Definition bare_world : World :=
  {| version_info := py3_11; home := ["home"; "user"]; argv := [];
     files := fun _ => Absent; json_loads := sample_json;
     processes := fun _ _ => CannotStart ENOENT; interrupt := None |}.

(** The sample world with an interrupt at call [k] and nothing else. *)
Definition interrupted_config_world (content : string) (k : nat) : World :=
  sample_world py3_11 [OptConfig ["settings.json"]]
    (one_file ["settings.json"] (Regular content)) (Some k).

(** * The class hierarchy *)

Lemma exn_class_eqb_refl (c : exn_class) : exn_class_eqb c c = true.
Proof.
  induction c; simpl; trivial.
  rewrite String.eqb_refl, IHc. reflexivity.
Qed.

Lemma issubclass_refl (c : exn_class) : issubclass c c = true.
Proof.
  unfold issubclass.
  destruct c; simpl; trivial.
  rewrite String.eqb_refl, exn_class_eqb_refl. reflexivity.
Qed.

(** Every class descends from [BaseException]. *)
Lemma issubclass_base (c : exn_class) : issubclass c BaseException_ = true.
Proof.
  unfold issubclass.
  induction c; simpl; trivial.
Qed.

(** The errors ([Exception] and below) and the interrupt are disjoint
    families. *)
Lemma exception_not_interrupt (c : exn_class) :
  issubclass c Exception_ = true -> issubclass c KeyboardInterrupt_ = false.
Proof.
  unfold issubclass.
  induction c; simpl; trivial; discriminate.
Qed.

Lemma oserror_is_exception (c : exn_class) :
  issubclass c OSError_ = true -> issubclass c Exception_ = true.
Proof.
  unfold issubclass.
  induction c; simpl; trivial; discriminate.
Qed.

Lemma valueerror_is_exception (c : exn_class) :
  issubclass c ValueError_ = true -> issubclass c Exception_ = true.
Proof.
  unfold issubclass.
  induction c; simpl; trivial; discriminate.
Qed.

(** A decoding error is a [ValueError] but neither a
    [JSONDecodeError] nor an [OSError]. *)
Lemma decode_error_classes (enc : string) (pos : nat) :
  isinstance (UnicodeDecodeError enc pos) ValueError_ = true /\
  isinstance (UnicodeDecodeError enc pos) JSONDecodeError_ = false /\
  isinstance (UnicodeDecodeError enc pos) OSError_ = false.
Proof. repeat split. Qed.

(** * The version test *)

Lemma version_test (v : VersionInfo) :
  tuple_ltb (as_tuple v) [CInt 3; CInt 8]
  = Some ((major v <? 3) || ((major v =? 3) && (minor v <? 8))).
Proof.
  unfold as_tuple. simpl.
  destruct (major v =? 3) eqn:Emaj.
  - apply Z.eqb_eq in Emaj. rewrite Emaj. simpl.
    destruct (minor v =? 8) eqn:Emin; trivial.
    apply Z.eqb_eq in Emin. rewrite Emin. reflexivity.
  - simpl. rewrite orb_false_r. reflexivity.
Qed.

Lemma version_test_below (v : VersionInfo) :
  tuple_ltb (as_tuple v) [CInt 3; CInt 8] = Some true <-> below_minimum v.
Proof.
  rewrite version_test. unfold below_minimum. split.
  - intros H. injection H as H.
    apply orb_true_iff in H. destruct H as [H | H].
    + left. lia.
    + apply andb_true_iff in H. right. lia.
  - intros [H | [H1 H2]]; f_equal; apply orb_true_iff.
    + left. lia.
    + right. apply andb_true_iff. lia.
Qed.

Lemma version_test_supported (v : VersionInfo) :
  tuple_ltb (as_tuple v) [CInt 3; CInt 8] = Some false <-> ~ below_minimum v.
Proof.
  split.
  - intros H Hb. apply version_test_below in Hb. congruence.
  - intros H. rewrite version_test.
    destruct ((major v <? 3) || ((major v =? 3) && (minor v <? 8))) eqn:E;
      trivial.
    exfalso. apply H. apply version_test_below. rewrite version_test, E.
    reflexivity.
Qed.

(** * Sequencing *)

Lemma bind_return {A B} (m : M A) (k : A -> M B) w st a st' :
  m w st = (Return a, st') -> bind m k w st = k a w st'.
Proof. unfold bind. intros ->. reflexivity. Qed.

Lemma bind_raise {A B} (m : M A) (k : A -> M B) w st e st' :
  m w st = (Raise e, st') -> bind m k w st = (Raise e, st').
Proof. unfold bind. intros ->. reflexivity. Qed.

Lemma try_return {A} (body : M A) hs w st a st' :
  body w st = (Return a, st') -> try_except body hs w st = (Return a, st').
Proof. unfold try_except. intros ->. reflexivity. Qed.

Lemma try_raise {A} (body : M A) hs w st e st' :
  body w st = (Raise e, st') ->
  try_except body hs w st = dispatch hs e w st'.
Proof. unfold try_except. intros ->. reflexivity. Qed.

(** * Runs without an interrupt *)

Section Uninterrupted.

Variable w : World.
Hypothesis quiet : interrupt w = None.

Lemma tick_quiet st : tick w st = (Return tt, bump st).
Proof. unfold tick. rewrite quiet. reflexivity. Qed.

Lemma log_quiet lvl fmt args st :
  log lvl fmt args w st
  = (Return tt,
     emit (LogCall lvl fmt args (enabled (root_level st) lvl)) (bump st)).
Proof. unfold log, bind. rewrite tick_quiet. reflexivity. Qed.

Lemma print_exc_quiet e st :
  print_exc e w st = (Return tt, emit (PrintExc e) (bump st)).
Proof. unfold print_exc, bind. rewrite tick_quiet. reflexivity. Qed.

Lemma path_exists_quiet p st :
  path_exists p w st
  = (match files w p with
     | Absent => Return false
     | Inaccessible k =>
         if ignored k then Return false else Raise (OSError k p)
     | _ => Return true
     end, bump st).
Proof.
  unfold path_exists, bind. rewrite tick_quiet.
  destruct (files w p) as [| | | |k]; try reflexivity.
  destruct (ignored k); reflexivity.
Qed.

Lemma sys_exit_quiet status st :
  sys_exit status w st = (Raise (SystemExit status), bump st).
Proof. unfold sys_exit, bind. rewrite tick_quiet. reflexivity. Qed.

(** ** [check_requirements] *)

Lemma check_requirements_too_old st :
  below_minimum (version_info w) ->
  check_requirements w st
  = (Return false,
     emit (LogCall ERROR "Python 3.8 or higher is required" []
             (enabled (root_level st) ERROR)) (bump st)).
Proof.
  intros H. apply version_test_below in H.
  unfold check_requirements, version_info_lt, bind. rewrite H, log_quiet.
  reflexivity.
Qed.

Lemma check_requirements_supported st :
  ~ below_minimum (version_info w) ->
  check_requirements w st
  = (Return true,
     emit (LogCall DEBUG "All requirements satisfied" []
             (enabled (root_level st) DEBUG)) (bump st)).
Proof.
  intros H. apply version_test_supported in H.
  unfold check_requirements, version_info_lt, bind. rewrite H, log_quiet.
  reflexivity.
Qed.

(** C5.  [check_requirements] returns [False] exactly when the running
    interpreter is older than Python 3.8 and [True] otherwise; it
    always returns, and all it does besides is one logging call: the
    logging configuration is untouched and the trace grows by that
    call alone. *)
Theorem check_requirements_spec (st : State) :
  exists (ok : bool) (lvl : Level) (fmt : string),
    check_requirements w st
    = (Return ok,
       emit (LogCall lvl fmt [] (enabled (root_level st) lvl)) (bump st))
    /\ (ok = false <-> below_minimum (version_info w))
    /\ (ok = true <-> ~ below_minimum (version_info w)).
Proof.
  unfold check_requirements, version_info_lt, bind.
  destruct (tuple_ltb (as_tuple (version_info w)) [CInt 3; CInt 8])
    as [[|]|] eqn:E.
  - exists false, ERROR, "Python 3.8 or higher is required".
    rewrite log_quiet. apply version_test_below in E.
    repeat split; trivial; try discriminate. intros H. contradiction.
  - exists true, DEBUG, "All requirements satisfied".
    rewrite log_quiet. apply version_test_supported in E.
    repeat split; trivial; try discriminate. intros H. contradiction.
  - rewrite version_test in E. discriminate.
Qed.

(** ** [run_command] *)

Lemma subprocess_run_quiet cmd cwd st :
  subprocess_run cmd cwd w st
  = (match processes w cmd cwd with
     | CannotStart k => Raise (OSError k (firstn 1 cmd))
     | Completed status out err =>
         match utf8_error out, utf8_error err with
         | Some pos, _ | None, Some pos => Raise (UnicodeDecodeError "utf-8" pos)
         | None, None =>
             if status =? 0 then
               Return {| cp_args := cmd; cp_returncode := status;
                         cp_stdout := out; cp_stderr := err |}
             else Raise (CalledProcessError status cmd out err)
         end
     end, emit (SubprocessRun cmd cwd) (bump st)).
Proof.
  unfold subprocess_run, bind. rewrite tick_quiet.
  destruct (processes w cmd cwd) as [k|status out err]; trivial.
  destruct (utf8_error out), (utf8_error err); trivial.
  destruct (status =? 0); reflexivity.
Qed.


End Uninterrupted.

(** * Inversion *)

Lemma bind_inv_return {A B} (m : M A) (k : A -> M B) w st b st' :
  bind m k w st = (Return b, st') ->
  exists a st1, m w st = (Return a, st1) /\ k a w st1 = (Return b, st').
Proof.
  unfold bind. destruct (m w st) as [[a|e] st1]; intros H.
  - exists a, st1. auto.
  - discriminate.
Qed.

Lemma bind_inv {A B} (m : M A) (k : A -> M B) w st r st' :
  bind m k w st = (r, st') ->
  (exists a st1, m w st = (Return a, st1) /\ k a w st1 = (r, st'))
  \/ (exists e, m w st = (Raise e, st') /\ r = Raise e).
Proof.
  unfold bind. destruct (m w st) as [[a|e] st1]; intros H.
  - left. exists a, st1. auto.
  - right. exists e. injection H as <- <-. auto.
Qed.

Lemma try_inv {A} (body : M A) hs w st r st' :
  try_except body hs w st = (r, st') ->
  (exists a, body w st = (Return a, st') /\ r = Return a)
  \/ (exists e st1, body w st = (Raise e, st1) /\ dispatch hs e w st1 = (r, st')).
Proof.
  unfold try_except. destruct (body w st) as [[a|e] st1]; intros H.
  - left. exists a. injection H as <- <-. auto.
  - right. exists e, st1. auto.
Qed.

(** A block that ends in [raise] does not return. *)
Lemma bind_no_return {A B} (m : M A) (k : A -> M B) w st b st' :
  (forall a w1 st1 b1 st2, k a w1 st1 <> (Return b1, st2)) ->
  bind m k w st <> (Return b, st').
Proof.
  intros Hk H. apply bind_inv_return in H. destruct H as (a & st1 & _ & H).
  exact (Hk _ _ _ _ _ H).
Qed.

Lemma raise_no_return {A} (e : exn) w st (a : A) st' :
  raise e w st <> (Return a, st').
Proof. unfold raise. discriminate. Qed.

Lemma subprocess_run_returns cmd cwd w st (r : CompletedProcess) st' :
  subprocess_run cmd cwd w st = (Return r, st') ->
  cp_returncode r = 0
  /\ cp_args r = cmd
  /\ processes w cmd cwd = Completed 0 (cp_stdout r) (cp_stderr r).
Proof.
  unfold subprocess_run. intros H.
  apply bind_inv_return in H. destruct H as (_ & st1 & _ & H).
  destruct (processes w cmd cwd) as [k|status out err]; [discriminate|].
  destruct (utf8_error out); [discriminate|].
  destruct (utf8_error err); [discriminate|].
  destruct (status =? 0) eqn:Hstatus; [|discriminate].
  apply Z.eqb_eq in Hstatus. subst status.
  injection H as <- _. auto.
Qed.

(** C9.  Whenever [run_command] returns normally, the result has exit
    status 0 and holds the command together with the stdout and stderr
    the process produced, as text. *)
Theorem run_command_returns w cmd cwd st (r : CompletedProcess) st' :
  run_command cmd cwd w st = (Return r, st') ->
  cp_returncode r = 0
  /\ cp_args r = cmd
  /\ processes w cmd cwd = Completed 0 (cp_stdout r) (cp_stderr r).
Proof.
  unfold run_command. intros H.
  apply bind_inv_return in H. destruct H as (_ & st1 & _ & H).
  apply try_inv in H. destruct H as [(a & H & Ha) | (e & st2 & _ & H)].
  - injection Ha as <-.
    apply bind_inv_return in H. destruct H as (res & st2 & Hrun & H).
    apply bind_inv_return in H. destruct H as (_ & st3 & _ & H).
    injection H as <- _.
    exact (subprocess_run_returns _ _ _ _ _ _ Hrun).
  - exfalso. revert H. simpl.
    destruct (catches _ e); [|apply raise_no_return].
    simpl. apply bind_no_return. intros _ w1 s1 b1 s2.
    apply bind_no_return. intros err w2 s3 b2 s4.
    apply bind_no_return. intros _ w3 s5 b3 s6.
    apply raise_no_return.
Qed.

(** * [load_config] *)

Section LoadConfig.

Variable w : World.
Hypothesis quiet : interrupt w = None.

Lemma open_read_quiet p st :
  open_read p w st
  = (match files w p with
     | Absent => Raise (OSError ENOENT p)
     | Directory => Raise (OSError EISDIR p)
     | Unreadable => Raise (OSError EACCES p)
     | Regular content => Return content
     | Inaccessible k => Raise (OSError k p)
     end, bump st).
Proof.
  unfold open_read, bind. rewrite (tick_quiet w quiet).
  destruct (files w p) as [| | | |k]; try reflexivity;
    destruct (ignored k); reflexivity.
Qed.

Lemma json_load_quiet content st :
  json_load content w st
  = (match utf8_error content with
     | Some pos => Raise (UnicodeDecodeError "utf-8" pos)
     | None =>
         match json_loads w content with
         | Parsed v => Return v
         | Invalid msg pos => Raise (JSONDecodeError msg pos)
         | Refused r msg => Raise (refusal_exn r msg)
         end
     end, bump st).
Proof.
  unfold json_load, bind. rewrite (tick_quiet w quiet).
  destruct (utf8_error content); trivial.
  destruct (json_loads w content); reflexivity.
Qed.

(** A missing file: a warning, and the empty mapping. *)
Lemma load_config_absent p st :
  files w p = Absent ->
  load_config p w st
  = (Return empty_dict,
     emit (LogCall WARNING "Configuration file %s not found, using defaults"
             [APath p] (enabled (root_level st) WARNING))
          (bump (bump st))).
Proof.
  intros Hf. unfold load_config.
  erewrite bind_return
    by (rewrite (path_exists_quiet w quiet), Hf; reflexivity).
  simpl.
  rewrite (bind_return _ _ _ _ _ _ (log_quiet w quiet _ _ _ _)).
  reflexivity.
Qed.

(** A path that is there but cannot be opened for reading: [open]
    raises an [OSError], which is logged and absorbed. *)
Lemma load_config_unreadable p st :
  files w p = Directory \/ files w p = Unreadable ->
  exists e st',
    load_config p w st = (Return empty_dict, st')
    /\ isinstance e OSError_ = true
    /\ trace st'
       = (trace st ++
          [LogCall ERROR "Error reading configuration file %s: %s"
             [APath p; AExn e] (enabled (root_level st) ERROR)])%list
    /\ root_level st' = root_level st.
Proof.
  intros Hf. unfold load_config.
  destruct Hf as [Hf | Hf];
    (erewrite bind_return
       by (rewrite (path_exists_quiet w quiet), Hf; reflexivity));
    simpl.
  - exists (OSError EISDIR p). eexists.
    erewrite try_raise.
    2:{ apply bind_raise. rewrite open_read_quiet, Hf. reflexivity. }
    simpl. rewrite (bind_return _ _ _ _ _ _ (log_quiet w quiet _ _ _ _)).
    repeat split.
  - exists (OSError EACCES p). eexists.
    erewrite try_raise.
    2:{ apply bind_raise. rewrite open_read_quiet, Hf. reflexivity. }
    simpl. rewrite (bind_return _ _ _ _ _ _ (log_quiet w quiet _ _ _ _)).
    repeat split.
Qed.

(** A UTF-8 file that is not JSON: the [JSONDecodeError] is logged
    and absorbed. *)
Lemma load_config_invalid_json p content msg pos st :
  files w p = Regular content ->
  utf8_error content = None ->
  json_loads w content = Invalid msg pos ->
  exists st',
    load_config p w st = (Return empty_dict, st')
    /\ trace st'
       = (trace st ++
          [LogCall ERROR "Invalid JSON in configuration file %s: %s"
             [APath p; AExn (JSONDecodeError msg pos)]
             (enabled (root_level st) ERROR)])%list
    /\ root_level st' = root_level st.
Proof.
  intros Hf Hutf Hjson. unfold load_config.
  erewrite bind_return
    by (rewrite (path_exists_quiet w quiet), Hf; reflexivity).
  simpl. eexists.
  erewrite try_raise.
  2:{ erewrite bind_return.
      2:{ rewrite open_read_quiet, Hf. reflexivity. }
      apply bind_raise. rewrite json_load_quiet, Hutf, Hjson. reflexivity. }
  simpl. rewrite (bind_return _ _ _ _ _ _ (log_quiet w quiet _ _ _ _)).
  repeat split.
Qed.

(** A UTF-8 file that parses: the parsed value is returned as it is,
    after one debug-level logging call. *)
Lemma load_config_parsed p content v st :
  files w p = Regular content ->
  utf8_error content = None ->
  json_loads w content = Parsed v ->
  exists st',
    load_config p w st = (Return v, st')
    /\ trace st'
       = (trace st ++
          [LogCall DEBUG "Loaded configuration from %s" [APath p]
             (enabled (root_level st) DEBUG)])%list
    /\ root_level st' = root_level st.
Proof.
  intros Hf Hutf Hjson. unfold load_config.
  erewrite bind_return
    by (rewrite (path_exists_quiet w quiet), Hf; reflexivity).
  simpl. eexists.
  erewrite try_return.
  2:{ erewrite bind_return.
      2:{ rewrite open_read_quiet, Hf. reflexivity. }
      erewrite bind_return.
      2:{ rewrite json_load_quiet, Hutf, Hjson. reflexivity. }
      rewrite (bind_return _ _ _ _ _ _ (log_quiet w quiet _ _ _ _)).
      reflexivity. }
  repeat split.
Qed.

(** A path that [stat] cannot reach for a reason [exists] takes for
    absence is treated as a missing file. *)
Lemma load_config_taken_for_absent p k st :
  files w p = Inaccessible k ->
  ignored k = true ->
  load_config p w st
  = (Return empty_dict,
     emit (LogCall WARNING "Configuration file %s not found, using defaults"
             [APath p] (enabled (root_level st) WARNING))
          (bump (bump st))).
Proof.
  intros Hf Hk. unfold load_config.
  erewrite bind_return
    by (rewrite (path_exists_quiet w quiet), Hf, Hk; reflexivity).
  simpl.
  rewrite (bind_return _ _ _ _ _ _ (log_quiet w quiet _ _ _ _)).
  reflexivity.
Qed.

(** When [exists] itself fails, its [OSError] leaves [load_config]:
    the call is outside the [try] statement. *)
Lemma load_config_exists_raises p k st :
  files w p = Inaccessible k ->
  ignored k = false ->
  load_config p w st = (Raise (OSError k p), bump st).
Proof.
  intros Hf Hk. unfold load_config.
  apply bind_raise. rewrite (path_exists_quiet w quiet), Hf, Hk. reflexivity.
Qed.

(** What the parser refuses leaves [load_config] as well: neither a
    [ValueError] nor a [RecursionError] is a [JSONDecodeError] or an
    [OSError]. *)
Lemma load_config_refused p content r msg st :
  files w p = Regular content ->
  utf8_error content = None ->
  json_loads w content = Refused r msg ->
  load_config p w st = (Raise (refusal_exn r msg), bump (bump (bump st))).
Proof.
  intros Hf Hutf Hjson. unfold load_config.
  erewrite bind_return
    by (rewrite (path_exists_quiet w quiet), Hf; reflexivity).
  simpl.
  erewrite try_raise.
  2:{ erewrite bind_return.
      2:{ rewrite open_read_quiet, Hf. reflexivity. }
      apply bind_raise. rewrite json_load_quiet, Hutf, Hjson.
      reflexivity. }
  destruct r; reflexivity.
Qed.

(** C1.  [load_config] does not absorb every failure: when the file
    is there and readable but its bytes are not UTF-8, the
    [UnicodeDecodeError] of [json.load] matches neither [except]
    clause and leaves [load_config], with nothing logged and no
    mapping returned. *)
Theorem load_config_undecodable_raises p content pos st :
  files w p = Regular content ->
  utf8_error content = Some pos ->
  load_config p w st
  = (Raise (UnicodeDecodeError "utf-8" pos), bump (bump (bump st))).
Proof.
  intros Hf Hutf. unfold load_config.
  erewrite bind_return
    by (rewrite (path_exists_quiet w quiet), Hf; reflexivity).
  simpl.
  erewrite try_raise.
  2:{ erewrite bind_return.
      2:{ rewrite open_read_quiet, Hf. reflexivity. }
      apply bind_raise. rewrite json_load_quiet, Hutf. reflexivity. }
  reflexivity.
Qed.


(** C10.  [load_config] does not check that the parsed value is a
    mapping: for a file whose JSON text is an array or a scalar, it
    returns that value unchanged, neither the empty mapping nor an
    error. *)
Theorem load_config_non_mapping p content v st :
  files w p = Regular content ->
  utf8_error content = None ->
  json_loads w content = Parsed v ->
  is_dict v = false ->
  exists st',
    load_config p w st = (Return v, st')
    /\ v <> empty_dict
    /\ log_calls (trace st')
       = (log_calls (trace st) ++
          [(DEBUG, "Loaded configuration from %s", [APath p])])%list.
Proof.
  intros Hf Hutf Hjson Hv.
  destruct (load_config_parsed p content v st Hf Hutf Hjson)
    as (st' & Hrun & Htrace & _).
  exists st'. repeat split; trivial.
  - intros ->. discriminate.
  - rewrite Htrace. unfold log_calls. rewrite flat_map_app. reflexivity.
Qed.

End LoadConfig.

(** * [main] *)

Lemma main_prelude w st :
  main w st = (args <- prelude ;; main_try args (main_body args)) w st.
Proof.
  unfold main, prelude, bind.
  destruct (parse_args w st) as [[args|e] st1]; trivial.
  destruct (setup_logging (verbose args) w st1) as [[[]|e] st2]; trivial.
  destruct (log INFO _ [] w st2) as [[[]|e] st3]; trivial.
Qed.

(** What the interpreter makes of an error that leaves the program. *)
Lemma uncaught_error w e st :
  isinstance e Exception_ = true ->
  interpreter_exit w (Raise e) st = (Exited 1, emit (Traceback e) st).
Proof.
  destruct e; trivial; discriminate.
Qed.

Section Main.

Variable w : World.
Hypothesis quiet : interrupt w = None.

Lemma parse_args_quiet st :
  parse_args w st
  = (parse_tokens (argv w) (default_args w) false, bump st).
Proof. unfold parse_args, bind. rewrite (tick_quiet w quiet). reflexivity. Qed.

Lemma basicConfig_quiet lvl st :
  basicConfig lvl w st
  = (Return tt,
     if root_configured st then bump st
     else {| ticks := S (ticks st); root_level := lvl;
             root_configured := true; trace := trace st |}).
Proof.
  unfold basicConfig, bind. rewrite (tick_quiet w quiet). simpl.
  destruct (root_configured st); reflexivity.
Qed.

Lemma prelude_quiet args :
  parse_tokens (argv w) (default_args w) false = Return args ->
  prelude w initial_state = (Return args, at_try args).
Proof.
  intros Hparse. unfold prelude.
  erewrite bind_return.
  2:{ rewrite parse_args_quiet, Hparse. reflexivity. }
  erewrite bind_return.
  2:{ unfold setup_logging. rewrite basicConfig_quiet. reflexivity. }
  rewrite (bind_return _ _ _ _ _ _ (log_quiet w quiet _ _ _ _)).
  unfold at_try, ret, emit, enabled. simpl.
  destruct (verbose args); reflexivity.
Qed.

Lemma when_printed args e st :
  when (verbose args) (print_exc e) w st
  = (Return tt,
     if verbose args then emit (PrintExc e) (bump st) else st).
Proof.
  unfold when. destruct (verbose args); trivial.
  apply (print_exc_quiet w quiet).
Qed.

(** An error raised by any protected block is handled by class: an
    [OSError] or a [ValueError] is logged and answered with 1, any
    other error is logged and raised again; the traceback is printed
    by the handler only under [--verbose]. *)
Lemma main_try_handles args (body : M Z) st st1 e :
  body w st = (Raise e, st1) ->
  isinstance e Exception_ = true ->
  exists st2,
    trace st2
    = (trace st1 ++
       LogCall ERROR
         (if isinstance e OSError_ || isinstance e ValueError_
          then "Handled error: %s" else "Unexpected error: %s")
         [AExn e] (enabled (root_level st1) ERROR)
       :: printed args e)%list
    /\ if isinstance e OSError_ || isinstance e ValueError_ then
         main_try args body w st = (Return 1, st2)
         /\ finish (exit_with (main_try args body)) w st
            = (Exited 1, bump st2)
       else
         main_try args body w st = (Raise e, st2)
         /\ finish (exit_with (main_try args body)) w st
            = (Exited 1, emit (Traceback e) st2).
Proof.
  intros Hbody Herror.
  assert (Hki : isinstance e KeyboardInterrupt_ = false)
    by (apply exception_not_interrupt; exact Herror).
  unfold main_try, finish, exit_with.
  destruct (isinstance e OSError_ || isinstance e ValueError_) eqn:Hrec.
  - exists (if verbose args
            then emit (PrintExc e)
                   (bump (emit (LogCall ERROR "Handled error: %s" [AExn e]
                                  (enabled (root_level st1) ERROR))
                            (bump st1)))
            else emit (LogCall ERROR "Handled error: %s" [AExn e]
                         (enabled (root_level st1) ERROR)) (bump st1)).
    assert (Hmain : try_except body (main_handlers args) w st
                    = (Return 1,
                       if verbose args
                       then emit (PrintExc e)
                              (bump (emit (LogCall ERROR "Handled error: %s"
                                             [AExn e]
                                             (enabled (root_level st1) ERROR))
                                       (bump st1)))
                       else emit (LogCall ERROR "Handled error: %s" [AExn e]
                                    (enabled (root_level st1) ERROR))
                              (bump st1))).
    { rewrite (try_raise _ _ _ _ _ _ Hbody). simpl.
      unfold catches. simpl. rewrite Hki. simpl.
      rewrite orb_false_r, Hrec.
      rewrite (bind_return _ _ _ _ _ _ (log_quiet w quiet _ _ _ _)).
      rewrite (bind_return _ _ _ _ _ _ (when_printed _ _ _)).
      reflexivity. }
    split; [|split].
    + unfold printed. destruct (verbose args); simpl; trivial.
      rewrite <- app_assoc. reflexivity.
    + exact Hmain.
    + rewrite (bind_return _ _ _ _ _ _ Hmain).
      rewrite (sys_exit_quiet w quiet). reflexivity.
  - exists (if verbose args
            then emit (PrintExc e)
                   (bump (emit (LogCall ERROR "Unexpected error: %s" [AExn e]
                                  (enabled (root_level st1) ERROR))
                            (bump st1)))
            else emit (LogCall ERROR "Unexpected error: %s" [AExn e]
                         (enabled (root_level st1) ERROR)) (bump st1)).
    assert (Hmain : try_except body (main_handlers args) w st
                    = (Raise e,
                       if verbose args
                       then emit (PrintExc e)
                              (bump (emit (LogCall ERROR
                                             "Unexpected error: %s" [AExn e]
                                             (enabled (root_level st1) ERROR))
                                       (bump st1)))
                       else emit (LogCall ERROR "Unexpected error: %s"
                                    [AExn e]
                                    (enabled (root_level st1) ERROR))
                              (bump st1))).
    { rewrite (try_raise _ _ _ _ _ _ Hbody). simpl.
      unfold catches. simpl. rewrite Hki. simpl.
      rewrite orb_false_r, Hrec, Herror. simpl.
      rewrite (bind_return _ _ _ _ _ _ (log_quiet w quiet _ _ _ _)).
      rewrite (bind_return _ _ _ _ _ _ (when_printed _ _ _)).
      reflexivity. }
    split; [|split].
    + unfold printed. destruct (verbose args); simpl; trivial.
      rewrite <- app_assoc. reflexivity.
    + exact Hmain.
    + rewrite (bind_raise _ _ _ _ _ _ Hmain).
      apply uncaught_error. exact Herror.
Qed.

End Main.

(** * No child process *)

Lemma spawned_emit ev st :
  spawned (trace (emit ev st))
  = (spawned (trace st) ++
     match ev with SubprocessRun cmd _ => [cmd] | _ => [] end)%list.
Proof. unfold spawned. simpl. rewrite flat_map_app. simpl. now rewrite app_nil_r. Qed.

Lemma spawns_nothing_ret {A} (a : A) : spawns_nothing (ret a).
Proof. intros w st r st' H. injection H as _ <-. reflexivity. Qed.

Lemma spawns_nothing_raise {A} (e : exn) : spawns_nothing (@raise A e).
Proof. intros w st r st' H. injection H as _ <-. reflexivity. Qed.

Lemma spawns_nothing_bind {A B} (m : M A) (k : A -> M B) :
  spawns_nothing m -> (forall a, spawns_nothing (k a)) ->
  spawns_nothing (bind m k).
Proof.
  intros Hm Hk w st r st' H.
  apply bind_inv in H. destruct H as [(a & st1 & H1 & H2) | (e & H1 & _)].
  - rewrite (Hk a _ _ _ _ H2). exact (Hm _ _ _ _ H1).
  - exact (Hm _ _ _ _ H1).
Qed.

Lemma spawns_nothing_dispatch {A} (hs : list (handler A)) e :
  Forall (fun h => forall e', spawns_nothing (snd h e')) hs ->
  spawns_nothing (dispatch hs e).
Proof.
  induction 1 as [|h hs Hh _ IH]; simpl.
  - apply spawns_nothing_raise.
  - destruct (catches h e); [apply Hh | exact IH].
Qed.

Lemma spawns_nothing_try {A} (body : M A) (hs : list (handler A)) :
  spawns_nothing body ->
  Forall (fun h => forall e, spawns_nothing (snd h e)) hs ->
  spawns_nothing (try_except body hs).
Proof.
  intros Hbody Hhs w st r st' H.
  apply try_inv in H. destruct H as [(a & H & _) | (e & st1 & H1 & H2)].
  - exact (Hbody _ _ _ _ H).
  - rewrite (spawns_nothing_dispatch hs e Hhs _ _ _ _ H2).
    exact (Hbody _ _ _ _ H1).
Qed.

(** A step that leaves the trace alone. *)
Lemma spawns_nothing_silent {A} (m : M A) :
  (forall w st, trace (snd (m w st)) = trace st) -> spawns_nothing m.
Proof.
  intros Hm w st r st' H. specialize (Hm w st). rewrite H in Hm. simpl in Hm.
  now rewrite Hm.
Qed.

Lemma spawns_nothing_tick : spawns_nothing tick.
Proof.
  apply spawns_nothing_silent. intros w st. unfold tick.
  destruct (interrupt w) as [k|]; [destruct (Nat.eqb k (ticks st))|];
    reflexivity.
Qed.

Lemma spawns_nothing_log lvl fmt args : spawns_nothing (log lvl fmt args).
Proof.
  apply spawns_nothing_bind; [apply spawns_nothing_tick|].
  intros _ w st r st' H. injection H as _ <-. rewrite spawned_emit.
  apply app_nil_r.
Qed.

Lemma spawns_nothing_print_exc e : spawns_nothing (print_exc e).
Proof.
  apply spawns_nothing_bind; [apply spawns_nothing_tick|].
  intros _ w st r st' H. injection H as _ <-. rewrite spawned_emit.
  apply app_nil_r.
Qed.

Lemma spawns_nothing_when b (m : M unit) :
  spawns_nothing m -> spawns_nothing (when b m).
Proof. destruct b; trivial. intros _. apply spawns_nothing_ret. Qed.

Lemma spawns_nothing_basicConfig lvl : spawns_nothing (basicConfig lvl).
Proof.
  apply spawns_nothing_bind; [apply spawns_nothing_tick|].
  intros _. apply spawns_nothing_silent. intros w st.
  destruct (root_configured st); reflexivity.
Qed.

Lemma spawns_nothing_path_exists p : spawns_nothing (path_exists p).
Proof.
  apply spawns_nothing_bind; [apply spawns_nothing_tick|].
  intros _. apply spawns_nothing_silent. intros w st.
  destruct (files w p) as [| | | |k]; try reflexivity;
    destruct (ignored k); reflexivity.
Qed.

Lemma spawns_nothing_open_read p : spawns_nothing (open_read p).
Proof.
  apply spawns_nothing_bind; [apply spawns_nothing_tick|].
  intros _. apply spawns_nothing_silent. intros w st.
  destruct (files w p) as [| | | |k]; try reflexivity;
    destruct (ignored k); reflexivity.
Qed.

Lemma spawns_nothing_json_load content : spawns_nothing (json_load content).
Proof.
  apply spawns_nothing_bind; [apply spawns_nothing_tick|].
  intros _. apply spawns_nothing_silent. intros w st.
  destruct (utf8_error content); trivial.
  destruct (json_loads w content); reflexivity.
Qed.

Lemma spawns_nothing_py_len v : spawns_nothing (py_len v).
Proof.
  destruct v; simpl;
    first [apply spawns_nothing_ret | apply spawns_nothing_raise].
Qed.

Lemma spawns_nothing_check_requirements : spawns_nothing check_requirements.
Proof.
  apply spawns_nothing_bind.
  - apply spawns_nothing_silent. intros w st. unfold version_info_lt.
    destruct (tuple_ltb _ _); reflexivity.
  - intros [|]; (apply spawns_nothing_bind;
                 [apply spawns_nothing_log | intros; apply spawns_nothing_ret]).
Qed.

Lemma spawns_nothing_load_config p : spawns_nothing (load_config p).
Proof.
  apply spawns_nothing_bind; [apply spawns_nothing_path_exists|].
  intros [|]; simpl.
  - apply spawns_nothing_try.
    + apply spawns_nothing_bind; [apply spawns_nothing_open_read|]. intros f.
      apply spawns_nothing_bind; [apply spawns_nothing_json_load|]. intros v.
      apply spawns_nothing_bind; [apply spawns_nothing_log|]. intros _.
      apply spawns_nothing_ret.
    + repeat constructor; simpl; intros e;
        (apply spawns_nothing_bind;
         [apply spawns_nothing_log | intros; apply spawns_nothing_ret]).
  - apply spawns_nothing_bind; [apply spawns_nothing_log|]. intros _.
    apply spawns_nothing_ret.
Qed.

Lemma spawns_nothing_main_body args : spawns_nothing (main_body args).
Proof.
  apply spawns_nothing_bind; [apply spawns_nothing_check_requirements|].
  intros [|]; simpl.
  - apply spawns_nothing_bind; [apply spawns_nothing_load_config|]. intros v.
    apply spawns_nothing_bind; [apply spawns_nothing_py_len|]. intros n.
    apply spawns_nothing_bind; [apply spawns_nothing_log|]. intros _.
    apply spawns_nothing_bind.
    { apply spawns_nothing_when, spawns_nothing_log. }
    intros _.
    apply spawns_nothing_bind; [apply spawns_nothing_log|]. intros _.
    apply spawns_nothing_bind; [apply spawns_nothing_log|]. intros _.
    apply spawns_nothing_ret.
  - apply spawns_nothing_bind; [apply spawns_nothing_log|]. intros _.
    apply spawns_nothing_ret.
Qed.

Lemma spawns_nothing_main_handlers args :
  Forall (fun h : handler Z => forall e, spawns_nothing (snd h e))
         (main_handlers args).
Proof.
  repeat constructor; simpl; intros e.
  - apply spawns_nothing_bind; [apply spawns_nothing_log|]. intros _.
    apply spawns_nothing_ret.
  - apply spawns_nothing_bind; [apply spawns_nothing_log|]. intros _.
    apply spawns_nothing_bind.
    { apply spawns_nothing_when, spawns_nothing_print_exc. }
    intros _. apply spawns_nothing_ret.
  - apply spawns_nothing_bind; [apply spawns_nothing_log|]. intros _.
    apply spawns_nothing_bind.
    { apply spawns_nothing_when, spawns_nothing_print_exc. }
    intros _. apply spawns_nothing_raise.
Qed.

Lemma spawns_nothing_main : spawns_nothing main.
Proof.
  apply spawns_nothing_bind.
  { apply spawns_nothing_bind; [apply spawns_nothing_tick|]. intros _.
    apply spawns_nothing_silent. reflexivity. }
  intros args.
  apply spawns_nothing_bind; [apply spawns_nothing_basicConfig|]. intros _.
  apply spawns_nothing_bind; [apply spawns_nothing_log|]. intros _.
  apply spawns_nothing_try.
  - apply spawns_nothing_main_body.
  - apply spawns_nothing_main_handlers.
Qed.

Lemma spawns_nothing_script : spawns_nothing script.
Proof.
  apply spawns_nothing_bind; [apply spawns_nothing_main|]. intros status.
  apply spawns_nothing_bind; [apply spawns_nothing_tick|]. intros _.
  apply spawns_nothing_raise.
Qed.

Lemma interpreter_exit_spawned w r st :
  spawned (trace (snd (interpreter_exit w r st))) = spawned (trace st).
Proof.
  destruct r as [a|e]; trivial.
  destruct e; unfold interpreter_exit; cbn [snd]; trivial;
    rewrite spawned_emit; apply app_nil_r.
Qed.

(** * Complete runs *)

Lemma parse_tokens_dry_run ts a extras args :
  parse_tokens ts a extras = Return args ->
  In FlagDryRun ts \/ dry_run a = true ->
  dry_run args = true.
Proof.
  revert a extras.
  induction ts as [|t ts IH]; intros a extras Hparse Hin.
  - destruct Hin as [[] | Hin]. simpl in Hparse.
    destruct extras; [discriminate|]. injection Hparse as <-. exact Hin.
  - destruct t; simpl in Hparse; try discriminate;
      apply IH in Hparse; trivial; simpl;
      destruct Hin as [[Hin | Hin] | Hin]; auto; discriminate.
Qed.

Section Runs.

Variable w : World.
Hypothesis quiet : interrupt w = None.

Lemma load_config_loads p st :
  config_loads w p = true ->
  exists v st',
    load_config p w st = (Return v, st')
    /\ sized v = true
    /\ root_level st' = root_level st.
Proof.
  unfold config_loads. intros H.
  destruct (files w p) as [| | |content|k] eqn:Hf.
  5:{ eexists _, _. rewrite (load_config_taken_for_absent w quiet p k st Hf H).
      repeat split. }
  - eexists _, _. rewrite (load_config_absent w quiet p st Hf).
    repeat split.
  - destruct (load_config_unreadable w quiet p st (or_introl Hf))
      as (e & st' & Hrun & _ & _ & Hlevel).
    exists empty_dict, st'. auto.
  - destruct (load_config_unreadable w quiet p st (or_intror Hf))
      as (e & st' & Hrun & _ & _ & Hlevel).
    exists empty_dict, st'. auto.
  - destruct (utf8_error content) eqn:Hutf; [discriminate|].
    destruct (json_loads w content) as [v|msg pos|r msg] eqn:Hjson;
      [| |discriminate].
    + destruct (load_config_parsed w quiet p content v st Hf Hutf Hjson)
        as (st' & Hrun & _ & Hlevel).
      exists v, st'. auto.
    + destruct (load_config_invalid_json w quiet p content msg pos st
                  Hf Hutf Hjson) as (st' & Hrun & _ & Hlevel).
      exists empty_dict, st'. auto.
Qed.

Lemma py_len_sized v :
  sized v = true -> exists n, py_len v = ret n.
Proof. destruct v; try discriminate; intros _; eexists; reflexivity. Qed.

(** With a supported interpreter and a loadable configuration, the
    protected block runs to its end and, under [--dry-run], writes
    the notice on the way. *)
Lemma main_body_dry_run args st :
  ~ below_minimum (version_info w) ->
  config_loads w (config args) = true ->
  dry_run args = true ->
  exists st',
    main_body args w st = (Return 0, st')
    /\ In (LogCall INFO "DRY RUN MODE - No changes will be made" []
             (enabled (root_level st) INFO)) (trace st').
Proof.
  intros Hver Hconf Hdry. unfold main_body.
  rewrite (bind_return _ _ _ _ _ _
             (check_requirements_supported w quiet st Hver)).
  simpl.
  destruct (load_config_loads (config args)
              (emit (LogCall DEBUG "All requirements satisfied" []
                       (enabled (root_level st) DEBUG)) (bump st)) Hconf)
    as (v & st1 & Hload & Hsized & Hlevel).
  rewrite (bind_return _ _ _ _ _ _ Hload).
  destruct (py_len_sized v Hsized) as (n & ->).
  rewrite Hdry. unfold when, bind, ret.
  rewrite !(log_quiet w quiet). eexists. split; [reflexivity|].
  simpl. rewrite Hlevel. simpl.
  rewrite !in_app_iff. simpl. tauto.
Qed.

(** A run whose protected block returns ends with that status. *)
Lemma run_script_returns args status st' :
  parse_tokens (argv w) (default_args w) false = Return args ->
  main_body args w (at_try args) = (Return status, st') ->
  run script w = (Exited (Z.land status 255), bump st').
Proof.
  intros Hparse Hbody.
  unfold run, finish, script, exit_with.
  erewrite bind_return.
  2:{ rewrite main_prelude.
      rewrite (bind_return _ _ _ _ _ _ (prelude_quiet w quiet args Hparse)).
      apply try_return. exact Hbody. }
  rewrite (sys_exit_quiet w quiet). reflexivity.
Qed.

(** C7.  Run with no arguments, no configuration file at the default
    path and a supported interpreter, the script exits with status 0.
    It makes six logging calls, of which four are written, in this
    order: the start message, the configuration-not-found warning,
    the not-yet-implemented notice and the completion message.  The
    requirements-satisfied message and the entry count are debug
    records, which the [INFO] threshold of a run without [--verbose]
    drops. *)
Theorem plain_run_log :
  argv w = [] ->
  files w (default_config w) = Absent ->
  ~ below_minimum (version_info w) ->
  exists st,
    run script w = (Exited 0, st)
    /\ trace st
       = [ LogCall INFO "Starting {{SCRIPT_NAME}}" [] true;
           LogCall DEBUG "All requirements satisfied" [] false;
           LogCall WARNING "Configuration file %s not found, using defaults"
             [APath (default_config w)] true;
           LogCall DEBUG "Loaded config with %d entries" [AInt 0] false;
           LogCall INFO "Script logic not yet implemented" [] true;
           LogCall INFO "{{SCRIPT_NAME}} completed successfully" [] true ]
    /\ written_records (trace st) = plain_sequence.
Proof.
  intros Hargv Hfile Hver.
  assert (Hparse : parse_tokens (argv w) (default_args w) false
                   = Return (default_args w)) by (rewrite Hargv; reflexivity).
  eexists. split; [|split].
  - apply (run_script_returns (default_args w) 0); trivial.
    unfold main_body.
    rewrite (bind_return _ _ _ _ _ _
               (check_requirements_supported w quiet _ Hver)).
    simpl.
    rewrite (bind_return _ _ _ _ _ _
               (load_config_absent w quiet _ _ Hfile)).
    simpl. unfold when, bind, ret. rewrite !(log_quiet w quiet).
    reflexivity.
  - reflexivity.
  - reflexivity.
Qed.

(** C8.  The script never calls [run_command]: no run, whatever the
    arguments and the environment, starts a child process.  Under
    [--dry-run] the notice is written once the protected block gets
    as far as the flag test, that is, when the arguments parse, the
    interpreter is supported and the configuration loads. *)
Theorem dry_run_behaviour args :
  spawned (trace (snd (run script w))) = []
  /\ (In FlagDryRun (argv w) ->
      parse_tokens (argv w) (default_args w) false = Return args ->
      ~ below_minimum (version_info w) ->
      config_loads w (config args) = true ->
      fst (run script w) = Exited 0
      /\ In (LogCall INFO "DRY RUN MODE - No changes will be made" [] true)
            (trace (snd (run script w)))).
Proof.
  split.
  - unfold run, finish.
    destruct (script w initial_state) as [r st] eqn:Hrun.
    rewrite interpreter_exit_spawned.
    exact (spawns_nothing_script _ _ _ _ Hrun).
  - intros Hflag Hparse Hver Hconf.
    assert (Hdry : dry_run args = true).
    { apply (parse_tokens_dry_run _ _ _ _ Hparse). left. exact Hflag. }
    destruct (main_body_dry_run args (at_try args) Hver Hconf Hdry)
      as (st' & Hbody & Hin).
    rewrite (run_script_returns args 0 st' Hparse Hbody). simpl.
    split; trivial.
    assert (Hen : enabled (root_level (at_try args)) INFO = true)
      by (simpl; destruct (verbose args); reflexivity).
    rewrite Hen in Hin. exact Hin.
Qed.

End Runs.

(** * User interrupts *)

Lemma interruptible_still {A} (m : M A) :
  (forall w st, ticks (snd (m w st)) = ticks st) -> interruptible m.
Proof.
  intros Hm w st k r st' _ H. specialize (Hm w st). rewrite H in Hm.
  simpl in Hm. rewrite Hm. split; lia.
Qed.

Lemma interruptible_ret {A} (a : A) : interruptible (ret a).
Proof. apply interruptible_still. reflexivity. Qed.

Lemma interruptible_raise {A} (e : exn) : interruptible (@raise A e).
Proof. apply interruptible_still. reflexivity. Qed.

Lemma interruptible_tick : interruptible tick.
Proof.
  intros w st k r st' Hk H. unfold tick in H. rewrite Hk in H.
  destruct (Nat.eqb k (ticks st)) eqn:E; injection H as <- <-; simpl.
  - split; [lia | reflexivity].
  - apply Nat.eqb_neq in E. split; lia.
Qed.

Lemma interruptible_bind {A B} (m : M A) (f : A -> M B) :
  interruptible m -> (forall a, interruptible (f a)) ->
  interruptible (bind m f).
Proof.
  intros Hm Hf w st k r st' Hk H.
  apply bind_inv in H. destruct H as [(a & st1 & H1 & H2) | (e & H1 & ->)].
  - destruct (Hm _ _ _ _ _ Hk H1) as [Hle1 Hin1].
    destruct (Hf a _ _ _ _ _ Hk H2) as [Hle2 Hin2].
    split; [lia|]. intros Hrange.
    destruct (Nat.lt_ge_cases k (ticks st1)) as [Hlt | Hge].
    + assert (Habs : Return a = Raise KeyboardInterrupt)
        by (apply Hin1; lia).
      discriminate.
    + apply Hin2. lia.
  - destruct (Hm _ _ _ _ _ Hk H1) as [Hle Hin].
    split; trivial. intros Hrange. apply Hin in Hrange.
    injection Hrange as ->. reflexivity.
Qed.

Lemma dispatch_interrupt {A} (hs : list (handler A)) :
  transparent hs -> dispatch hs KeyboardInterrupt = raise KeyboardInterrupt.
Proof.
  induction 1 as [|h hs [Hh _] _ IH]; simpl; trivial.
  rewrite Hh. exact IH.
Qed.

Lemma interruptible_dispatch {A} (hs : list (handler A)) e :
  transparent hs -> interruptible (dispatch hs e).
Proof.
  induction 1 as [|h hs [_ Hh] _ IH]; simpl.
  - apply interruptible_raise.
  - destruct (catches h e); [apply Hh | exact IH].
Qed.

Lemma interruptible_try {A} (body : M A) (hs : list (handler A)) :
  interruptible body -> transparent hs ->
  interruptible (try_except body hs).
Proof.
  intros Hbody Hhs w st k r st' Hk H.
  apply try_inv in H. destruct H as [(a & H & ->) | (e & st1 & H1 & H2)].
  - exact (Hbody _ _ _ _ _ Hk H).
  - destruct (Hbody _ _ _ _ _ Hk H1) as [Hle1 Hin1].
    destruct (interruptible_dispatch hs e Hhs _ _ _ _ _ Hk H2) as [Hle2 Hin2].
    split; [lia|]. intros Hrange.
    destruct (Nat.lt_ge_cases k (ticks st1)) as [Hlt | Hge].
    + assert (He : Raise (A:=A) e = Raise KeyboardInterrupt)
        by (apply Hin1; lia).
      injection He as ->.
      rewrite (dispatch_interrupt hs Hhs) in H2. injection H2 as <- _.
      reflexivity.
    + apply Hin2. lia.
Qed.

(** A library call: one tick, then an effect that keeps the clock. *)
Lemma interruptible_call {A} (f : M A) :
  (forall w st, ticks (snd (f w st)) = ticks st) ->
  interruptible (tick ;; f).
Proof.
  intros Hf. apply interruptible_bind; [apply interruptible_tick|].
  intros _. apply interruptible_still. exact Hf.
Qed.

Lemma interruptible_log lvl fmt args : interruptible (log lvl fmt args).
Proof. apply interruptible_call. reflexivity. Qed.

Lemma interruptible_when b (m : M unit) :
  interruptible m -> interruptible (when b m).
Proof. destruct b; trivial. intros _. apply interruptible_ret. Qed.

Lemma interruptible_check_requirements : interruptible check_requirements.
Proof.
  apply interruptible_bind.
  - apply interruptible_still. intros w st. unfold version_info_lt.
    destruct (tuple_ltb _ _); reflexivity.
  - intros [|]; (apply interruptible_bind;
                 [apply interruptible_log | intros; apply interruptible_ret]).
Qed.

Lemma interruptible_load_config p : interruptible (load_config p).
Proof.
  apply interruptible_bind.
  { apply interruptible_call. intros w st. destruct (files w p) as [| | | |k]; try reflexivity;
    destruct (ignored k); reflexivity. }
  intros [|]; simpl.
  - apply interruptible_try.
    + apply interruptible_bind.
      { apply interruptible_call. intros w st.
        destruct (files w p) as [| | | |k]; try reflexivity;
    destruct (ignored k); reflexivity. }
      intros f. apply interruptible_bind.
      { apply interruptible_call. intros w st.
        destruct (utf8_error f); trivial.
        destruct (json_loads w f); reflexivity. }
      intros v.
      apply interruptible_bind; [apply interruptible_log|]. intros _.
      apply interruptible_ret.
    + repeat (apply Forall_cons;
              [split; [reflexivity|]; intros e;
               apply interruptible_bind;
               [apply interruptible_log | intros; apply interruptible_ret]|]).
      apply Forall_nil.
  - apply interruptible_bind; [apply interruptible_log|]. intros _.
    apply interruptible_ret.
Qed.

Lemma interruptible_py_len v : interruptible (py_len v).
Proof.
  destruct v; simpl;
    first [apply interruptible_ret | apply interruptible_raise].
Qed.

(** The protected block of [main] swallows no interrupt. *)
Lemma interruptible_main_body args : interruptible (main_body args).
Proof.
  apply interruptible_bind; [apply interruptible_check_requirements|].
  intros [|]; simpl.
  - apply interruptible_bind; [apply interruptible_load_config|]. intros v.
    apply interruptible_bind; [apply interruptible_py_len|]. intros n.
    apply interruptible_bind; [apply interruptible_log|]. intros _.
    apply interruptible_bind.
    { apply interruptible_when, interruptible_log. }
    intros _.
    apply interruptible_bind; [apply interruptible_log|]. intros _.
    apply interruptible_bind; [apply interruptible_log|]. intros _.
    apply interruptible_ret.
  - apply interruptible_bind; [apply interruptible_log|]. intros _.
    apply interruptible_ret.
Qed.

Lemma interruptible_prelude : interruptible prelude.
Proof.
  apply interruptible_bind.
  { apply interruptible_call. reflexivity. }
  intros args. apply interruptible_bind.
  { apply interruptible_call. intros w st.
    destruct (root_configured st); reflexivity. }
  intros _. apply interruptible_bind; [apply interruptible_log|]. intros _.
  apply interruptible_ret.
Qed.

(** Once the interrupt has been delivered, calls run normally. *)
Lemma tick_past w k st :
  interrupt w = Some k -> (k < ticks st)%nat ->
  tick w st = (Return tt, bump st).
Proof.
  intros Hk Hlt. unfold tick. rewrite Hk.
  destruct (Nat.eqb k (ticks st)) eqn:E; trivial.
  apply Nat.eqb_eq in E. lia.
Qed.

Lemma log_past w k lvl fmt args st :
  interrupt w = Some k -> (k < ticks st)%nat ->
  log lvl fmt args w st
  = (Return tt,
     emit (LogCall lvl fmt args (enabled (root_level st) lvl)) (bump st)).
Proof.
  intros Hk Hlt. unfold log, bind. rewrite (tick_past w k st Hk Hlt).
  reflexivity.
Qed.

(** C3.  A user interrupt that arrives after [main] has entered its
    [try] block and before that block ends is caught: [main] logs a
    warning and returns 130, and the process exits with status 130. *)
Theorem interrupt_in_try_exits_130 w k args st :
  interrupt w = Some k ->
  prelude w initial_state = (Return args, st) ->
  (k < ticks (snd (main_body args w st)))%nat ->
  exists st1 st',
    main_body args w st = (Raise KeyboardInterrupt, st1)
    /\ main w initial_state = (Return 130, st')
    /\ trace st'
       = (trace st1 ++
          [LogCall WARNING "Script interrupted by user" []
             (enabled (root_level st1) WARNING)])%list
    /\ run script w = (Exited 130, bump st').
Proof.
  intros Hk Hpre Hin.
  destruct (interruptible_prelude _ _ _ _ _ Hk Hpre) as [_ Hpre_in].
  assert (Hge : (ticks st <= k)%nat).
  { destruct (Nat.lt_ge_cases k (ticks st)) as [Hlt | Hge]; trivial.
    assert (Habs : Return args = Raise KeyboardInterrupt)
      by (apply Hpre_in; simpl; lia).
    discriminate. }
  destruct (main_body args w st) as [r st1] eqn:Hbody. simpl in Hin.
  destruct (interruptible_main_body args _ _ _ _ _ Hk Hbody) as [_ Hbody_in].
  assert (Hr : r = Raise KeyboardInterrupt) by (apply Hbody_in; lia).
  subst r.
  assert (Hmain : main w initial_state
                  = (Return 130,
                     emit (LogCall WARNING "Script interrupted by user" []
                             (enabled (root_level st1) WARNING)) (bump st1))).
  { rewrite main_prelude. rewrite (bind_return _ _ _ _ _ _ Hpre).
    unfold main_try. rewrite (try_raise _ _ _ _ _ _ Hbody). simpl.
    rewrite (bind_return _ _ _ _ _ _ (log_past w k _ _ _ st1 Hk Hin)).
    reflexivity. }
  eexists _, _. split; [reflexivity|]. split; [exact Hmain|].
  split; [reflexivity|].
  unfold run, finish, script, exit_with.
  rewrite (bind_return _ _ _ _ _ _ Hmain).
  unfold sys_exit, bind. rewrite (tick_past w k _ Hk).
  - reflexivity.
  - simpl. lia.
Qed.

(** * What can reach the handlers of [main] *)

Lemma raises_errors_ret {A} (a : A) : raises_errors (ret a).
Proof. intros w st e st' _ H. discriminate. Qed.

Lemma raises_errors_raise {A} (e : exn) :
  isinstance e Exception_ = true -> raises_errors (@raise A e).
Proof. intros He w st e' st' _ H. injection H as <- _. exact He. Qed.

Lemma raises_errors_bind {A B} (m : M A) (f : A -> M B) :
  raises_errors m -> (forall a, raises_errors (f a)) ->
  raises_errors (bind m f).
Proof.
  intros Hm Hf w st e st' Hq H.
  apply bind_inv in H. destruct H as [(a & st1 & _ & H2) | (e' & H1 & He)].
  - exact (Hf a _ _ _ _ Hq H2).
  - injection He as ->. exact (Hm _ _ _ _ Hq H1).
Qed.

Lemma raises_errors_try {A} (body : M A) (hs : list (handler A)) :
  raises_errors body ->
  Forall (fun h => forall e, raises_errors (snd h e)) hs ->
  raises_errors (try_except body hs).
Proof.
  intros Hbody Hhs w st e st' Hq H.
  apply try_inv in H. destruct H as [(a & _ & H) | (e' & st1 & H1 & H2)].
  - discriminate.
  - specialize (Hbody _ _ _ _ Hq H1). revert H2.
    induction Hhs as [|h hs Hh _ IH]; simpl.
    + intros H2. injection H2 as <- _. exact Hbody.
    + destruct (catches h e'); [|exact IH].
      intros H2. exact (Hh e' _ _ _ _ Hq H2).
Qed.

(** A library call, whose own failures are errors. *)
Lemma raises_errors_call {A} (f : M A) :
  (forall w st e st', f w st = (Raise e, st') -> isinstance e Exception_ = true) ->
  raises_errors (tick ;; f).
Proof.
  intros Hf w st e st' Hq H. unfold bind in H.
  rewrite (tick_quiet w Hq) in H. exact (Hf _ _ _ _ H).
Qed.

Lemma raises_errors_log lvl fmt args : raises_errors (log lvl fmt args).
Proof. apply raises_errors_call. intros w st e st' H. discriminate. Qed.

Lemma raises_errors_when b (m : M unit) :
  raises_errors m -> raises_errors (when b m).
Proof. destruct b; trivial. intros _. apply raises_errors_ret. Qed.

Lemma raises_errors_check_requirements : raises_errors check_requirements.
Proof.
  apply raises_errors_bind.
  - intros w st e st' _ H. unfold version_info_lt in H.
    destruct (tuple_ltb _ _); [discriminate|].
    injection H as <- _. reflexivity.
  - intros [|]; (apply raises_errors_bind;
                 [apply raises_errors_log | intros; apply raises_errors_ret]).
Qed.

Lemma raises_errors_load_config p : raises_errors (load_config p).
Proof.
  apply raises_errors_bind.
  { apply raises_errors_call. intros w st e st' H.
    destruct (files w p) as [| | | |k]; try discriminate.
    destruct (ignored k); [discriminate|].
    injection H as <- _. destruct k; try reflexivity; discriminate. }
  intros [|]; simpl.
  - apply raises_errors_try.
    + apply raises_errors_bind.
      { apply raises_errors_call. intros w st e st' H.
        destruct (files w p) as [| | | |k]; try discriminate;
          injection H as <- _; try reflexivity.
        destruct k; reflexivity. }
      intros f. apply raises_errors_bind.
      { apply raises_errors_call. intros w st e st' H.
        destruct (utf8_error f).
        - injection H as <- _. reflexivity.
        - destruct (json_loads w f) as [v|msg pos|[|] msg];
            [discriminate| | |]; injection H as <- _; reflexivity. }
      intros v.
      apply raises_errors_bind; [apply raises_errors_log|]. intros _.
      apply raises_errors_ret.
    + repeat (apply Forall_cons;
              [intros e; apply raises_errors_bind;
               [apply raises_errors_log | intros; apply raises_errors_ret]|]).
      apply Forall_nil.
  - apply raises_errors_bind; [apply raises_errors_log|]. intros _.
    apply raises_errors_ret.
Qed.

Lemma raises_errors_py_len v : raises_errors (py_len v).
Proof.
  destruct v; simpl;
    first [apply raises_errors_ret | apply raises_errors_raise; reflexivity].
Qed.

(** In a run the user does not interrupt, whatever the protected block
    of [main] raises is an error: the handlers of [main] meet no
    [SystemExit] and no other exception outside [Exception]. *)
Lemma raises_errors_main_body args : raises_errors (main_body args).
Proof.
  apply raises_errors_bind; [apply raises_errors_check_requirements|].
  intros [|]; simpl.
  - apply raises_errors_bind; [apply raises_errors_load_config|]. intros v.
    apply raises_errors_bind; [apply raises_errors_py_len|]. intros n.
    apply raises_errors_bind; [apply raises_errors_log|]. intros _.
    apply raises_errors_bind.
    { apply raises_errors_when, raises_errors_log. }
    intros _.
    apply raises_errors_bind; [apply raises_errors_log|]. intros _.
    apply raises_errors_bind; [apply raises_errors_log|]. intros _.
    apply raises_errors_ret.
  - apply raises_errors_bind; [apply raises_errors_log|]. intros _.
    apply raises_errors_ret.
Qed.

(** * The statements at sample worlds *)

(** [check_requirements] on Python 3.11 and on Python 3.7. *)
Lemma check_requirements_spec_witness :
  (exists ok lvl fmt,
     check_requirements plain_world initial_state
     = (Return ok,
        emit (LogCall lvl fmt [] (enabled WARNING lvl)) (bump initial_state))
     /\ (ok = false <-> below_minimum py3_11)
     /\ (ok = true <-> ~ below_minimum py3_11))
  /\ fst (check_requirements plain_world initial_state) = Return true
  /\ fst (check_requirements (dry_run_world py3_7) initial_state)
     = Return false.
Proof.
  split; [|split; reflexivity].
  exact (check_requirements_spec plain_world eq_refl initial_state).
Defined.


(** [run_command(['true'])] returns, with status 0 and empty output. *)
Lemma run_command_returns_witness :
  exists r st',
    run_command ["true"] None plain_world initial_state = (Return r, st')
    /\ cp_returncode r = 0
    /\ cp_args r = ["true"]
    /\ processes plain_world ["true"] None
       = Completed 0 (cp_stdout r) (cp_stderr r).
Proof.
  eexists _, _. split; [reflexivity|].
  eapply (run_command_returns plain_world ["true"] None initial_state).
  reflexivity.
Defined.

(** A configuration file holding the byte [0xFF]. *)
Lemma load_config_undecodable_raises_witness :
  files latin1_world ["settings.json"] = Regular (String (ascii_of_nat 255) "")
  /\ utf8_error (String (ascii_of_nat 255) "") = Some 0%nat
  /\ load_config ["settings.json"] latin1_world initial_state
     = (Raise (UnicodeDecodeError "utf-8" 0),
        bump (bump (bump initial_state))).
Proof.
  split; [reflexivity|]. split; [reflexivity|].
  apply (load_config_undecodable_raises latin1_world eq_refl
           ["settings.json"] (String (ascii_of_nat 255) "") 0%nat
           initial_state); reflexivity.
Defined.


(** A configuration file holding an array. *)
Lemma load_config_non_mapping_witness :
  exists st',
    load_config ["settings.json"] (config_world "[1, 2]") initial_state
    = (Return (PList [PInt 1; PInt 2]), st')
    /\ PList [PInt 1; PInt 2] <> empty_dict
    /\ log_calls (trace st')
       = [(DEBUG, "Loaded configuration from %s", [APath ["settings.json"]])].
Proof.
  exact (load_config_non_mapping (config_world "[1, 2]") eq_refl
           ["settings.json"] "[1, 2]" (PList [PInt 1; PInt 2])
           initial_state eq_refl eq_refl eq_refl eq_refl).
Defined.

(** A plain run on Python 3.11. *)
Lemma plain_run_log_witness :
  exists st,
    run script plain_world = (Exited 0, st)
    /\ written_records (trace st) = plain_sequence.
Proof.
  destruct (plain_run_log plain_world eq_refl eq_refl eq_refl)
    as (st & Hrun & _ & Hwritten).
  - unfold below_minimum. simpl. lia.
  - exists st. split; assumption.
Defined.

(** [--dry-run] on Python 3.11. *)
Lemma dry_run_behaviour_witness :
  spawned (trace (snd (run script (dry_run_world py3_11)))) = []
  /\ fst (run script (dry_run_world py3_11)) = Exited 0
  /\ In (LogCall INFO "DRY RUN MODE - No changes will be made" [] true)
        (trace (snd (run script (dry_run_world py3_11)))).
Proof.
  destruct (dry_run_behaviour (dry_run_world py3_11) eq_refl
              {| verbose := false; dry_run := true;
                 config := default_config (dry_run_world py3_11) |})
    as [Hspawn Hnotice].
  split; [exact Hspawn|].
  apply Hnotice.
  - left. reflexivity.
  - reflexivity.
  - unfold below_minimum. simpl. lia.
  - reflexivity.
Defined.

(** An interrupt during the configuration lookup of a plain run. *)
Lemma interrupt_in_try_exits_130_witness :
  fst (run script (interrupted_world py3_11 4)) = Exited 130.
Proof.
  destruct (interrupt_in_try_exits_130 (interrupted_world py3_11 4) 4
              (default_args (interrupted_world py3_11 4))
              (at_try (default_args (interrupted_world py3_11 4)))
              eq_refl eq_refl)
    as (st1 & st' & _ & _ & _ & Hrun).
  - simpl. lia.
  - rewrite Hrun. reflexivity.
Defined.

(** * Where the specification and the script part *)

(** C3, refuted.  An interrupt that arrives while [main] is still
    parsing its arguments is outside the [try] block: [main] raises
    [KeyboardInterrupt] instead of returning 130, nothing is logged,
    and the interpreter ends the process itself, by [SIGINT] on Python
    3.8 and later and with status 1 before. *)
Lemma interrupt_before_try_escapes :
  interrupt (interrupted_world py3_11 0) = Some 0%nat
  /\ main (interrupted_world py3_11 0) initial_state
     = (Raise KeyboardInterrupt, bump initial_state)
  /\ run script (interrupted_world py3_11 0)
     = (Killed SIGINT, emit (Traceback KeyboardInterrupt) (bump initial_state))
  /\ fst (run script (interrupted_world py3_11 0)) <> Exited 130
  /\ fst (run script (interrupted_world py3_7 0)) = Exited 1.
Proof.
  repeat split. discriminate.
Qed.

(** An interrupt that arrives while a handler of [main] is logging is
    not caught either. *)
Lemma interrupt_in_handler_escapes :
  run script
    (sample_world py3_11 [OptConfig ["settings.json"]]
       (one_file ["settings.json"] (Regular (String (ascii_of_nat 255) "")))
       (Some 7%nat))
  = (Killed SIGINT,
     emit (Traceback KeyboardInterrupt)
       {| ticks := 8; root_level := INFO; root_configured := true;
          trace := [LogCall INFO "Starting {{SCRIPT_NAME}}" [] true;
                    LogCall DEBUG "All requirements satisfied" [] false] |}).
Proof. reflexivity. Qed.



(** The gap of C1 seen from C6: a file holding an object with one
    integer of 4301 digits is read by the grammar without trouble, but
    [json.load] refuses the integer with a [ValueError], which no
    clause of [load_config] catches. *)
Lemma long_integer_config_raises :
  written_pairs long_integer_json = Some [("n", PInt (10 ^ 4300))]
  /\ fst (load_config ["settings.json"] (config_world long_integer_json)
            initial_state)
     = Raise (Error ValueError_
                "Exceeds the limit (4300 digits) for integer string conversion").
Proof.
  split; vm_compute; reflexivity.
Qed.

(** C7, refuted.  A plain run exits with status 0, but what it writes
    is not the listed sequence: the requirements-satisfied message is
    not among the records written, and the calls made include one the
    list leaves out. *)
Lemma plain_run_not_listed_sequence :
  fst (run script plain_world) = Exited 0
  /\ written_records (trace (snd (run script plain_world))) <> listed_sequence
  /\ ~ In (DEBUG, "All requirements satisfied")
          (written_records (trace (snd (run script plain_world))))
  /\ map fst (log_calls (trace (snd (run script plain_world))))
     <> listed_sequence.
Proof.
  split; [reflexivity|]. split; [discriminate|]. split; [|discriminate].
  simpl. intros [H | [H | [H | [H | []]]]]; discriminate.
Qed.

(** C8, refuted.  With [--dry-run] on Python 3.7 the requirements check
    fails first: the run ends with status 1 and no dry-run notice is
    logged, written or not. *)
Lemma dry_run_notice_missing_on_old_interpreter :
  In FlagDryRun (argv (dry_run_world py3_7))
  /\ fst (run script (dry_run_world py3_7)) = Exited 1
  /\ ~ In (INFO, "DRY RUN MODE - No changes will be made", [])
          (log_calls (trace (snd (run script (dry_run_world py3_7))))).
Proof.
  split; [left; reflexivity|]. split; [reflexivity|].
  simpl. intros [H | [H | [H | []]]]; discriminate.
Qed.

(** C1 at the process level: the decoding error that leaves
    [load_config] ends the run with status 1, where a missing or
    malformed file would have been replaced by the empty mapping and
    the run would have gone on to status 0. *)
Lemma undecodable_config_ends_run :
  fst (run script latin1_world) = Exited 1
  /\ fst (run script (config_world "not json")) = Exited 0.
Proof. split; reflexivity. Qed.

(** * Further properties of [load_config] *)

Section LoadConfigOutcomes.

Variable w : World.
Hypothesis quiet : interrupt w = None.

(** X1.  For a path where [exists] finds nothing, [load_config] makes
    two library calls in all, the existence test and one warning-level
    logging call naming the path: it does not open the file.  It
    returns the empty mapping and leaves the logging threshold as it
    was. *)
Theorem load_config_missing_file p st :
  files w p = Absent ->
  exists st',
    load_config p w st = (Return empty_dict, st')
    /\ ticks st' = S (S (ticks st))
    /\ trace st'
       = (trace st ++
          [LogCall WARNING "Configuration file %s not found, using defaults"
             [APath p] (enabled (root_level st) WARNING)])%list
    /\ root_level st' = root_level st.
Proof.
  intros Hf. eexists. rewrite (load_config_absent w quiet p st Hf).
  repeat split.
Qed.

(** X2.  For a path that exists but cannot be opened for reading (a
    directory, or a file without read permission), the [OSError] of
    [open] is absorbed: [load_config] makes one error-level logging call
    carrying the path and the exception and returns the empty
    mapping. *)
Theorem load_config_unopenable p st :
  files w p = Directory \/ files w p = Unreadable ->
  exists k st',
    load_config p w st = (Return empty_dict, st')
    /\ (k = EISDIR \/ k = EACCES)
    /\ trace st'
       = (trace st ++
          [LogCall ERROR "Error reading configuration file %s: %s"
             [APath p; AExn (OSError k p)] (enabled (root_level st) ERROR)])%list.
Proof.
  intros Hf. unfold load_config.
  destruct Hf as [Hf | Hf];
    (erewrite bind_return
       by (rewrite (path_exists_quiet w quiet), Hf; reflexivity));
    simpl;
    [exists EISDIR | exists EACCES]; eexists;
    (erewrite try_raise;
     [| apply bind_raise; rewrite (open_read_quiet w quiet), Hf; reflexivity]);
    simpl; rewrite (bind_return _ _ _ _ _ _ (log_quiet w quiet _ _ _ _));
    repeat split; auto.
Qed.

(** X3.  For a UTF-8 file whose text is not JSON, the [JSONDecodeError]
    is absorbed: [load_config] makes one error-level logging call
    carrying the path and the parser's error and returns the empty
    mapping. *)
Theorem load_config_malformed_json p content msg pos st :
  files w p = Regular content ->
  utf8_error content = None ->
  json_loads w content = Invalid msg pos ->
  exists st',
    load_config p w st = (Return empty_dict, st')
    /\ log_calls (trace st')
       = (log_calls (trace st) ++
          [(ERROR, "Invalid JSON in configuration file %s: %s",
            [APath p; AExn (JSONDecodeError msg pos)])])%list
    /\ root_level st' = root_level st.
Proof.
  intros Hf Hutf Hjson.
  destruct (load_config_invalid_json w quiet p content msg pos st
              Hf Hutf Hjson) as (st' & Hrun & Htrace & Hlevel).
  exists st'. repeat split; trivial.
  rewrite Htrace. unfold log_calls. rewrite flat_map_app. reflexivity.
Qed.

Lemma load_config_decode_error p content pos st :
  files w p = Regular content ->
  utf8_error content = Some pos ->
  load_config p w st
  = (Raise (UnicodeDecodeError "utf-8" pos), bump (bump (bump st))).
Proof.
  intros Hf Hutf. unfold load_config.
  erewrite bind_return
    by (rewrite (path_exists_quiet w quiet), Hf; reflexivity).
  simpl.
  erewrite try_raise.
  2:{ erewrite bind_return.
      2:{ rewrite (open_read_quiet w quiet), Hf. reflexivity. }
      apply bind_raise. rewrite (json_load_quiet w quiet), Hutf.
      reflexivity. }
  reflexivity.
Qed.


(** X5.  What an uninterrupted [load_config] returns is either the
    empty mapping or the value [json.load] parsed from the file at the
    path: it never makes up or alters configuration. *)
Theorem load_config_returns_parsed_or_empty p st v st' :
  load_config p w st = (Return v, st') ->
  v = empty_dict
  \/ exists content,
       files w p = Regular content
       /\ utf8_error content = None
       /\ json_loads w content = Parsed v.
Proof.
  intros Hrun.
  destruct (files w p) as [| | |content|k] eqn:Hf.
  - rewrite (load_config_absent w quiet p st Hf) in Hrun.
    injection Hrun as <- _. auto.
  - destruct (load_config_unreadable w quiet p st (or_introl Hf))
      as (e' & st1 & H & _). rewrite H in Hrun. injection Hrun as <- _. auto.
  - destruct (load_config_unreadable w quiet p st (or_intror Hf))
      as (e' & st1 & H & _). rewrite H in Hrun. injection Hrun as <- _. auto.
  - destruct (utf8_error content) as [pos|] eqn:Hutf.
    + rewrite (load_config_decode_error p content pos st Hf Hutf) in Hrun.
      discriminate.
    + destruct (json_loads w content) as [v'|msg pos|r msg] eqn:Hjson.
      * destruct (load_config_parsed w quiet p content v' st Hf Hutf Hjson)
          as (st1 & H & _). rewrite H in Hrun. injection Hrun as <- _.
        right. exists content. auto.
      * destruct (load_config_invalid_json w quiet p content msg pos st
                    Hf Hutf Hjson) as (st1 & H & _).
        rewrite H in Hrun. injection Hrun as <- _. auto.
      * rewrite (load_config_refused w quiet p content r msg st Hf Hutf Hjson)
          in Hrun.
        discriminate.
  - destruct (ignored k) eqn:Hk.
    + rewrite (load_config_taken_for_absent w quiet p k st Hf Hk) in Hrun.
      injection Hrun as <- _. auto.
    + rewrite (load_config_exists_raises w quiet p k st Hf Hk) in Hrun.
      discriminate.
Qed.

End LoadConfigOutcomes.

(** * Further properties of [run_command] *)

Section RunCommandOutcomes.

Variable w : World.
Hypothesis quiet : interrupt w = None.

(** X6.  When the external process exits with status 0 and its
    captured output decodes as text, [run_command] returns the result
    of [subprocess.run] with the command, status 0 and both captured
    streams; on the way it makes two debug-level logging calls, the
    second with the stripped stdout, and no error-level one. *)
Theorem run_command_success command cwd st out err :
  processes w command cwd = Completed 0 out err ->
  utf8_error out = None ->
  utf8_error err = None ->
  exists st',
    run_command command cwd w st
    = (Return {| cp_args := command; cp_returncode := 0;
                 cp_stdout := out; cp_stderr := err |}, st')
    /\ trace st'
       = (trace st ++
          [ LogCall DEBUG "Running command: %s"
              [AStr (String.concat " " command)]
              (enabled (root_level st) DEBUG);
            SubprocessRun command cwd;
            LogCall DEBUG "Command output: %s" [AStr (strip out)]
              (enabled (root_level st) DEBUG) ])%list.
Proof.
  intros Hproc Hout Herr. unfold run_command.
  rewrite (bind_return _ _ _ _ _ _ (log_quiet w quiet _ _ _ _)).
  eexists. erewrite try_return.
  2:{ erewrite bind_return.
      2:{ rewrite (subprocess_run_quiet w quiet), Hproc, Hout, Herr.
          reflexivity. }
      simpl.
      rewrite (bind_return _ _ _ _ _ _ (log_quiet w quiet _ _ _ _)).
      reflexivity. }
  split; [reflexivity|]. simpl. rewrite <- !app_assoc. reflexivity.
Qed.

(** X7.  When the program cannot be started at all, the [OSError] of
    [subprocess.run] is not a [CalledProcessError]: it leaves
    [run_command] as it is, and neither of the two error-level messages
    is logged. *)
Theorem run_command_cannot_start command cwd st k :
  processes w command cwd = CannotStart k ->
  exists st',
    run_command command cwd w st
    = (Raise (OSError k (firstn 1 command)), st')
    /\ trace st'
       = (trace st ++
          [ LogCall DEBUG "Running command: %s"
              [AStr (String.concat " " command)]
              (enabled (root_level st) DEBUG);
            SubprocessRun command cwd ])%list.
Proof.
  intros Hproc. unfold run_command.
  rewrite (bind_return _ _ _ _ _ _ (log_quiet w quiet _ _ _ _)).
  eexists. erewrite try_raise.
  2:{ apply bind_raise. unfold subprocess_run, bind.
      rewrite (tick_quiet w quiet), Hproc. reflexivity. }
  assert (Hcatch : isinstance (OSError k (firstn 1 command))
                     CalledProcessError_ = false)
    by (destruct k; reflexivity).
  cbn [dispatch]. unfold catches. cbn [fst existsb]. rewrite Hcatch.
  split; [reflexivity|]. simpl. rewrite <- !app_assoc. reflexivity.
Qed.

End RunCommandOutcomes.

Lemma subprocess_run_spawned command cwd w st r st' :
  subprocess_run command cwd w st = (r, st') ->
  exists l,
    spawned (trace st') = (spawned (trace st) ++ l)%list
    /\ (l = [] \/ l = [command])
    /\ (interrupt w = None -> l = [command]).
Proof.
  unfold subprocess_run. intros H.
  apply bind_inv in H. destruct H as [([] & st1 & Htick & H) | (e & Htick & _)].
  - exists [command].
    pose proof (spawns_nothing_tick _ _ _ _ Htick) as Hst1.
    assert (Hsp : spawned (trace st')
                  = (spawned (trace st1) ++ [command])%list).
    { destruct (processes w command cwd) as [k|status out err].
      - injection H as _ <-. apply spawned_emit.
      - destruct (utf8_error out), (utf8_error err), (status =? 0);
          injection H as _ <-; apply spawned_emit. }
    rewrite Hsp, Hst1. auto.
  - exists []. rewrite app_nil_r. split; [|split; auto].
    + exact (spawns_nothing_tick _ _ _ _ Htick).
    + intros Hq. rewrite (tick_quiet w Hq) in Htick. discriminate.
Qed.

(** X8.  A call of [run_command] starts the command once and never
    more than once: there is no retry on any path, and an uninterrupted
    call always starts it. *)
Theorem run_command_spawns_once command cwd w st r st' :
  run_command command cwd w st = (r, st') ->
  exists l,
    spawned (trace st') = (spawned (trace st) ++ l)%list
    /\ (l = [] \/ l = [command])
    /\ (interrupt w = None -> l = [command]).
Proof.
  unfold run_command. intros H.
  apply bind_inv in H. destruct H as [([] & st1 & Hlog & H) | (e & Hlog & _)].
  2:{ exists []. rewrite app_nil_r. split; [|split; auto].
      - exact (spawns_nothing_log _ _ _ _ _ _ _ Hlog).
      - intros Hq. rewrite (log_quiet w Hq) in Hlog. discriminate. }
  pose proof (spawns_nothing_log _ _ _ _ _ _ _ Hlog) as Hst1.
  rewrite <- Hst1.
  assert (Hhandlers :
            Forall (fun h : handler CompletedProcess =>
                      forall e, spawns_nothing (snd h e))
              [ ([CalledProcessError_],
                 fun e =>
                   log ERROR "Command failed: %s" [AExn e] ;;
                   err <- attr_stderr e ;;
                   log ERROR "stderr: %s" [AStr err] ;;
                   raise e) ]).
  { repeat constructor. simpl. intros e.
    apply spawns_nothing_bind; [apply spawns_nothing_log|]. intros _.
    apply spawns_nothing_bind.
    { destruct e; simpl;
        first [apply spawns_nothing_ret | apply spawns_nothing_raise]. }
    intros err.
    apply spawns_nothing_bind; [apply spawns_nothing_log|]. intros _.
    apply spawns_nothing_raise. }
  assert (Hrest : forall (res : CompletedProcess),
             spawns_nothing
               (log DEBUG "Command output: %s" [AStr (strip (cp_stdout res))] ;;
                ret res)).
  { intros res.
    apply spawns_nothing_bind; [apply spawns_nothing_log|]. intros _.
    apply spawns_nothing_ret. }
  apply try_inv in H. destruct H as [(a & H & _) | (e & st2 & H & Hd)].
  - apply bind_inv in H.
    destruct H as [(res & st2 & Hrun & H) | (e & Hrun & Habs)];
      [|discriminate].
    rewrite (Hrest res _ _ _ _ H).
    exact (subprocess_run_spawned _ _ _ _ _ _ Hrun).
  - rewrite (spawns_nothing_dispatch _ e Hhandlers _ _ _ _ Hd).
    apply bind_inv in H.
    destruct H as [(res & st3 & Hrun & H) | (e' & Hrun & _)].
    + rewrite (Hrest res _ _ _ _ H).
      exact (subprocess_run_spawned _ _ _ _ _ _ Hrun).
    + exact (subprocess_run_spawned _ _ _ _ _ _ Hrun).
Qed.

(** X9.  [run_command] does not swallow a user interrupt: if the
    interrupt arrives during one of the calls [run_command] makes, the
    [KeyboardInterrupt] passes the [except CalledProcessError] clause
    and leaves [run_command]. *)
Theorem run_command_interrupt command cwd w st k r st' :
  interrupt w = Some k ->
  run_command command cwd w st = (r, st') ->
  (ticks st <= k < ticks st')%nat ->
  r = Raise KeyboardInterrupt.
Proof.
  intros Hk Hrun.
  assert (Hi : interruptible (run_command command cwd)).
  { apply interruptible_bind; [apply interruptible_log|]. intros _.
    apply interruptible_try.
    - apply interruptible_bind.
      { apply interruptible_call. intros w0 st0.
        destruct (processes w0 command cwd) as [e|status out err]; trivial.
        destruct (utf8_error out), (utf8_error err), (status =? 0);
          reflexivity. }
      intros res.
      apply interruptible_bind; [apply interruptible_log|]. intros _.
      apply interruptible_ret.
    - apply Forall_cons; [|apply Forall_nil].
      split; [reflexivity|]. intros e. simpl.
      apply interruptible_bind; [apply interruptible_log|]. intros _.
      apply interruptible_bind.
      { destruct e; simpl;
          first [apply interruptible_ret | apply interruptible_raise]. }
      intros err.
      apply interruptible_bind; [apply interruptible_log|]. intros _.
      apply interruptible_raise. }
  exact (proj2 (Hi _ _ _ _ _ Hk Hrun)).
Qed.

(** * Further properties of the start of [main] *)

Lemma parse_tokens_accepts ts a :
  forallb accepted ts = true ->
  parse_tokens ts a false
  = Return {| verbose := verbose a || existsb is_verbose ts;
              dry_run := dry_run a || existsb is_dry_run ts;
              config := last_config ts (config a) |}.
Proof.
  revert a. induction ts as [|t ts IH]; intros a Hok; simpl.
  - rewrite !orb_false_r. destruct a; reflexivity.
  - simpl in Hok. apply andb_true_iff in Hok. destruct Hok as [Ht Hts].
    destruct t; try discriminate; rewrite (IH _ Hts); simpl;
      rewrite ?orb_true_r, ?orb_false_r; reflexivity.
Qed.

Lemma parse_tokens_rejects ts a extras :
  extras = true \/ forallb accepted ts = false ->
  parse_tokens ts a extras = Raise (SystemExit 0)
  \/ parse_tokens ts a extras = Raise (SystemExit 2).
Proof.
  revert a extras. induction ts as [|t ts IH]; intros a extras H; simpl.
  - destruct H as [-> | H]; [auto | discriminate].
  - destruct t; simpl in H; auto.
Qed.

Section Start.

Variable w : World.
Hypothesis quiet : interrupt w = None.

(** X10.  On a root logger that has no handler yet, [setup_logging]
    sets the threshold to [DEBUG] under [verbose] and to [INFO]
    otherwise, and the first configuration stays: a second
    [setup_logging], whatever its argument, changes neither the
    threshold nor the trace. *)
Theorem setup_logging_first_wins (first second : bool) st :
  root_configured st = false ->
  exists st',
    (setup_logging first ;; setup_logging second) w st = (Return tt, st')
    /\ root_level st' = (if first then DEBUG else INFO)
    /\ root_configured st' = true
    /\ trace st' = trace st.
Proof.
  intros Hfresh. unfold setup_logging.
  rewrite (bind_return _ _ _ _ _ _ (basicConfig_quiet w quiet _ _)).
  rewrite Hfresh. rewrite (basicConfig_quiet w quiet). simpl.
  eexists. split; [reflexivity|]. repeat split.
Qed.

(** X11.  [parse_args] accepts a command line exactly when it holds
    nothing but the three declared options.  Then [verbose] and
    [dry_run] tell whether their flag occurs at all, in any position
    and any number of times, and [config] is the value of the last
    [--config], the per-user default without one.  Any other command
    line ends in [SystemExit] with status 0 or 2. *)
Theorem parse_args_spec st :
  (forallb accepted (argv w) = true ->
   parse_args w st
   = (Return {| verbose := existsb is_verbose (argv w);
                dry_run := existsb is_dry_run (argv w);
                config := last_config (argv w) (default_config w) |},
      bump st))
  /\ (forallb accepted (argv w) = false ->
      parse_args w st = (Raise (SystemExit 0), bump st)
      \/ parse_args w st = (Raise (SystemExit 2), bump st)).
Proof.
  rewrite (parse_args_quiet w quiet). split; intros H.
  - rewrite (parse_tokens_accepts _ _ H). reflexivity.
  - destruct (parse_tokens_rejects (argv w) (default_args w) false
                (or_intror H)) as [-> | ->]; auto.
Qed.

(** X12.  A command line that [parse_args] rejects ends the run before
    anything else happens: the [SystemExit] is raised outside the [try]
    block, so the process exits with status 0 (help) or 2 (usage error)
    with logging not configured, nothing logged and no traceback. *)
Theorem rejected_arguments_exit_early :
  forallb accepted (argv w) = false ->
  exists status,
    (status = 0 \/ status = 2)
    /\ run script w = (Exited status, bump initial_state).
Proof.
  intros H.
  assert (Hmain : forall status,
             parse_tokens (argv w) (default_args w) false
             = Raise (SystemExit status) ->
             run script w = (Exited (Z.land status 255), bump initial_state)).
  { intros status Hparse. unfold run, finish, script, exit_with.
    erewrite bind_raise.
    2:{ unfold main. apply bind_raise.
        rewrite (parse_args_quiet w quiet), Hparse. reflexivity. }
    reflexivity. }
  destruct (parse_tokens_rejects (argv w) (default_args w) false
              (or_intror H)) as [Hparse | Hparse].
  - exists 0. split; auto. exact (Hmain 0 Hparse).
  - exists 2. split; auto. exact (Hmain 2 Hparse).
Qed.

End Start.

(** * Further properties of complete runs *)

Section Outcomes.

Variable w : World.
Hypothesis quiet : interrupt w = None.

Lemma main_body_too_old args st :
  below_minimum (version_info w) ->
  main_body args w st
  = (Return 1,
     emit (LogCall ERROR "Requirements check failed" []
             (enabled (root_level st) ERROR))
       (bump (emit (LogCall ERROR "Python 3.8 or higher is required" []
                      (enabled (root_level st) ERROR)) (bump st)))).
Proof.
  intros Hver. unfold main_body.
  rewrite (bind_return _ _ _ _ _ _
             (check_requirements_too_old w quiet st Hver)).
  simpl. rewrite (bind_return _ _ _ _ _ _ (log_quiet w quiet _ _ _ _)).
  reflexivity.
Qed.

Lemma main_body_completes args st :
  ~ below_minimum (version_info w) ->
  config_loads w (config args) = true ->
  exists st', main_body args w st = (Return 0, st').
Proof.
  intros Hver Hconf. unfold main_body.
  rewrite (bind_return _ _ _ _ _ _
             (check_requirements_supported w quiet st Hver)).
  simpl.
  destruct (load_config_loads w quiet (config args)
              (emit (LogCall DEBUG "All requirements satisfied" []
                       (enabled (root_level st) DEBUG)) (bump st)) Hconf)
    as (v & st1 & Hload & Hsized & _).
  rewrite (bind_return _ _ _ _ _ _ Hload).
  destruct (py_len_sized v Hsized) as (n & ->).
  unfold when, bind, ret.
  destruct (dry_run args); rewrite !(log_quiet w quiet); eexists; reflexivity.
Qed.

Lemma main_body_undecodable args st content pos :
  ~ below_minimum (version_info w) ->
  files w (config args) = Regular content ->
  utf8_error content = Some pos ->
  main_body args w st
  = (Raise (UnicodeDecodeError "utf-8" pos),
     bump (bump (bump
       (emit (LogCall DEBUG "All requirements satisfied" []
                (enabled (root_level st) DEBUG)) (bump st))))).
Proof.
  intros Hver Hf Hutf. unfold main_body.
  rewrite (bind_return _ _ _ _ _ _
             (check_requirements_supported w quiet st Hver)).
  simpl. apply bind_raise.
  exact (load_config_decode_error w quiet _ content pos _ Hf Hutf).
Qed.

Lemma main_body_unsized args st content v :
  ~ below_minimum (version_info w) ->
  files w (config args) = Regular content ->
  utf8_error content = None ->
  json_loads w content = Parsed v ->
  sized v = false ->
  exists st1,
    main_body args w st = (Raise (TypeError (no_len v)), st1)
    /\ trace st1
       = (trace st ++
          [ LogCall DEBUG "All requirements satisfied" []
              (enabled (root_level st) DEBUG);
            LogCall DEBUG "Loaded configuration from %s" [APath (config args)]
              (enabled (root_level st) DEBUG) ])%list
    /\ root_level st1 = root_level st.
Proof.
  intros Hver Hf Hutf Hjson Hsized. unfold main_body.
  rewrite (bind_return _ _ _ _ _ _
             (check_requirements_supported w quiet st Hver)).
  simpl.
  destruct (load_config_parsed w quiet (config args) content v
              (emit (LogCall DEBUG "All requirements satisfied" []
                       (enabled (root_level st) DEBUG)) (bump st))
              Hf Hutf Hjson) as (st1 & Hload & Htrace & Hlevel).
  rewrite (bind_return _ _ _ _ _ _ Hload).
  exists st1. split; [|split].
  - apply bind_raise. destruct v; try discriminate; reflexivity.
  - rewrite Htrace. simpl. rewrite <- app_assoc. reflexivity.
  - exact Hlevel.
Qed.

(** A run whose [try] statement yields a status ends with it. *)
Lemma run_script_status args status st' :
  parse_tokens (argv w) (default_args w) false = Return args ->
  main_try args (main_body args) w (at_try args) = (Return status, st') ->
  run script w = (Exited (Z.land status 255), bump st').
Proof.
  intros Hparse Htry.
  unfold run, finish, script, exit_with.
  erewrite bind_return.
  2:{ rewrite main_prelude.
      rewrite (bind_return _ _ _ _ _ _ (prelude_quiet w quiet args Hparse)).
      exact Htry. }
  rewrite (sys_exit_quiet w quiet). reflexivity.
Qed.

(** A run whose [try] statement lets an exception out ends in the
    interpreter's hands. *)
Lemma run_script_uncaught args e st' :
  parse_tokens (argv w) (default_args w) false = Return args ->
  main_try args (main_body args) w (at_try args) = (Raise e, st') ->
  run script w = interpreter_exit w (Raise e) st'.
Proof.
  intros Hparse Htry.
  unfold run, finish, script, exit_with.
  erewrite bind_raise.
  2:{ rewrite main_prelude.
      rewrite (bind_return _ _ _ _ _ _ (prelude_quiet w quiet args Hparse)).
      exact Htry. }
  reflexivity.
Qed.

Lemma status_too_old args :
  parse_tokens (argv w) (default_args w) false = Return args ->
  below_minimum (version_info w) ->
  fst (run script w) = Exited 1.
Proof.
  intros Hparse Hver.
  erewrite (run_script_status args 1); trivial.
  apply try_return. apply main_body_too_old. exact Hver.
Qed.

Lemma status_undecodable args content pos :
  parse_tokens (argv w) (default_args w) false = Return args ->
  ~ below_minimum (version_info w) ->
  files w (config args) = Regular content ->
  utf8_error content = Some pos ->
  fst (run script w) = Exited 1.
Proof.
  intros Hparse Hver Hf Hutf.
  erewrite (run_script_status args 1); trivial.
  unfold main_try.
  rewrite (try_raise _ _ _ _ _ _
             (main_body_undecodable args _ content pos Hver Hf Hutf)).
  simpl.
  rewrite (bind_return _ _ _ _ _ _ (log_quiet w quiet _ _ _ _)).
  rewrite (bind_return _ _ _ _ _ _ (when_printed w quiet _ _ _)).
  reflexivity.
Qed.

Lemma status_unsized args content v :
  parse_tokens (argv w) (default_args w) false = Return args ->
  ~ below_minimum (version_info w) ->
  files w (config args) = Regular content ->
  utf8_error content = None ->
  json_loads w content = Parsed v ->
  sized v = false ->
  fst (run script w) = Exited 1.
Proof.
  intros Hparse Hver Hf Hutf Hjson Hsized.
  destruct (main_body_unsized args (at_try args) content v
              Hver Hf Hutf Hjson Hsized) as (st1 & Hbody & _).
  assert (Htry : exists st2,
             main_try args (main_body args) w (at_try args)
             = (Raise (TypeError (no_len v)), st2)).
  { eexists. unfold main_try. rewrite (try_raise _ _ _ _ _ _ Hbody). simpl.
    rewrite (bind_return _ _ _ _ _ _ (log_quiet w quiet _ _ _ _)).
    rewrite (bind_return _ _ _ _ _ _ (when_printed w quiet _ _ _)).
    reflexivity. }
  destruct Htry as (st2 & Htry).
  rewrite (run_script_uncaught args _ _ Hparse Htry). reflexivity.
Qed.

(** X14.  On an interpreter older than Python 3.8 every run whose
    arguments parse ends with status 1 after the start message and two
    error records, all three written; the configuration is not looked
    at and nothing else is logged. *)
Theorem old_interpreter_run args :
  parse_tokens (argv w) (default_args w) false = Return args ->
  below_minimum (version_info w) ->
  exists st,
    run script w = (Exited 1, st)
    /\ trace st
       = [ LogCall INFO "Starting {{SCRIPT_NAME}}" [] true;
           LogCall ERROR "Python 3.8 or higher is required" [] true;
           LogCall ERROR "Requirements check failed" [] true ].
Proof.
  intros Hparse Hver. eexists. split.
  - apply (run_script_status args 1); trivial.
    apply try_return. apply main_body_too_old. exact Hver.
  - simpl. destruct (verbose args); reflexivity.
Qed.

(** X15.  A configuration file whose JSON is a number, a boolean or
    [null] makes the run fail: [load_config] returns the value,
    [len(config)] raises [TypeError], [main] logs it as an unexpected
    error and raises it again, and the process ends with a traceback
    and status 1. *)
Theorem unsized_config_crashes args content v :
  parse_tokens (argv w) (default_args w) false = Return args ->
  ~ below_minimum (version_info w) ->
  files w (config args) = Regular content ->
  utf8_error content = None ->
  json_loads w content = Parsed v ->
  sized v = false ->
  exists st,
    run script w = (Exited 1, st)
    /\ trace st
       = ([ LogCall INFO "Starting {{SCRIPT_NAME}}" [] true;
            LogCall DEBUG "All requirements satisfied" [] (verbose args);
            LogCall DEBUG "Loaded configuration from %s" [APath (config args)]
              (verbose args);
            LogCall ERROR "Unexpected error: %s"
              [AExn (TypeError (no_len v))] true ]
          ++ printed args (TypeError (no_len v))
          ++ [Traceback (TypeError (no_len v))])%list.
Proof.
  intros Hparse Hver Hf Hutf Hjson Hsized.
  destruct (main_body_unsized args (at_try args) content v
              Hver Hf Hutf Hjson Hsized) as (st1 & Hbody & Htrace & Hlevel).
  assert (Htry :
            main_try args (main_body args) w (at_try args)
            = (Raise (TypeError (no_len v)),
               if verbose args
               then emit (PrintExc (TypeError (no_len v)))
                      (bump (emit (LogCall ERROR "Unexpected error: %s"
                                     [AExn (TypeError (no_len v))]
                                     (enabled (root_level st1) ERROR))
                               (bump st1)))
               else emit (LogCall ERROR "Unexpected error: %s"
                            [AExn (TypeError (no_len v))]
                            (enabled (root_level st1) ERROR)) (bump st1))).
  { unfold main_try. rewrite (try_raise _ _ _ _ _ _ Hbody). simpl.
    rewrite (bind_return _ _ _ _ _ _ (log_quiet w quiet _ _ _ _)).
    rewrite (bind_return _ _ _ _ _ _ (when_printed w quiet _ _ _)).
    reflexivity. }
  rewrite (run_script_uncaught args _ _ Hparse Htry).
  eexists. split; [reflexivity|].
  assert (Hfinal : forall evs st2,
             trace st2 = (trace st1 ++ evs)%list ->
             trace (emit (Traceback (TypeError (no_len v))) st2)
             = (trace st1 ++ evs
                ++ [Traceback (TypeError (no_len v))])%list).
  { intros evs st2 H. simpl. rewrite H, <- app_assoc. reflexivity. }
  unfold printed. rewrite Hlevel. simpl in Htrace.
  unfold at_try. cbn [root_level].
  destruct (verbose args); simpl enabled.
  - rewrite (Hfinal [LogCall ERROR "Unexpected error: %s"
                       [AExn (TypeError (no_len v))] true;
                     PrintExc (TypeError (no_len v))]).
    + rewrite Htrace. simpl. reflexivity.
    + simpl. rewrite <- app_assoc. reflexivity.
  - rewrite (Hfinal [LogCall ERROR "Unexpected error: %s"
                       [AExn (TypeError (no_len v))] true]).
    + rewrite Htrace. simpl. reflexivity.
    + reflexivity.
Qed.

(** X16.  A configuration file whose bytes are not UTF-8 ends the run
    with status 1: the [UnicodeDecodeError] that leaves [load_config]
    is a [ValueError], so [main] logs it as a handled error, prints
    the traceback only under [--verbose] and returns 1; the interpreter
    reports nothing. *)
Theorem undecodable_config_run args content pos :
  parse_tokens (argv w) (default_args w) false = Return args ->
  ~ below_minimum (version_info w) ->
  files w (config args) = Regular content ->
  utf8_error content = Some pos ->
  exists st,
    run script w = (Exited 1, st)
    /\ trace st
       = ([ LogCall INFO "Starting {{SCRIPT_NAME}}" [] true;
            LogCall DEBUG "All requirements satisfied" [] (verbose args);
            LogCall ERROR "Handled error: %s"
              [AExn (UnicodeDecodeError "utf-8" pos)] true ]
          ++ printed args (UnicodeDecodeError "utf-8" pos))%list.
Proof.
  intros Hparse Hver Hf Hutf.
  eexists. split.
  - apply (run_script_status args 1); trivial.
    unfold main_try.
    rewrite (try_raise _ _ _ _ _ _
               (main_body_undecodable args _ content pos Hver Hf Hutf)).
    simpl.
    rewrite (bind_return _ _ _ _ _ _ (log_quiet w quiet _ _ _ _)).
    rewrite (bind_return _ _ _ _ _ _ (when_printed w quiet _ _ _)).
    reflexivity.
  - unfold printed, at_try. simpl. destruct (verbose args); reflexivity.
Qed.

(** X17.  With a supported interpreter and no file at the
    configuration path, a run completes with status 0 whatever the
    flags.  Its trace is the start message, the requirements message,
    the not-found warning, the entry count, the dry-run notice if
    [--dry-run] was given, the not-yet-implemented notice and the
    completion message; the two debug records are written exactly
    under [--verbose], all others always. *)
Theorem completed_run args :
  parse_tokens (argv w) (default_args w) false = Return args ->
  ~ below_minimum (version_info w) ->
  files w (config args) = Absent ->
  exists st,
    run script w = (Exited 0, st) /\ trace st = completed_trace args.
Proof.
  intros Hparse Hver Hf.
  assert (Hbody : exists st',
             main_body args w (at_try args) = (Return 0, st')
             /\ trace st' = completed_trace args).
  { unfold main_body.
    rewrite (bind_return _ _ _ _ _ _
               (check_requirements_supported w quiet _ Hver)).
    simpl.
    rewrite (bind_return _ _ _ _ _ _ (load_config_absent w quiet _ _ Hf)).
    simpl. unfold when, bind, ret, completed_trace.
    destruct (dry_run args); rewrite !(log_quiet w quiet); eexists;
      (split; [reflexivity|]); simpl; destruct (verbose args); reflexivity. }
  destruct Hbody as (st' & Hbody & Htrace).
  exists (bump st'). split; [|exact Htrace].
  apply (run_script_status args 0); trivial.
  apply try_return. exact Hbody.
Qed.

(** A run from the [try] statement on. *)
Lemma run_script_from_try args :
  parse_tokens (argv w) (default_args w) false = Return args ->
  run script w
  = finish (exit_with (main_try args (main_body args))) w (at_try args).
Proof.
  intros Hparse.
  assert (Hmain : main w initial_state
                  = main_try args (main_body args) w (at_try args)).
  { rewrite main_prelude.
    rewrite (bind_return _ _ _ _ _ _ (prelude_quiet w quiet args Hparse)).
    reflexivity. }
  unfold run, finish, script, exit_with, bind. rewrite Hmain. reflexivity.
Qed.

(** Whatever error the protected block raises, handled or not, the
    process ends with status 1. *)
Lemma status_error args e st1 :
  parse_tokens (argv w) (default_args w) false = Return args ->
  main_body args w (at_try args) = (Raise e, st1) ->
  fst (run script w) = Exited 1.
Proof.
  intros Hparse Hbody.
  pose proof (raises_errors_main_body args _ _ _ _ quiet Hbody) as Herr.
  destruct (main_try_handles w quiet args (main_body args) (at_try args)
              st1 e Hbody Herr) as (st2 & _ & H).
  rewrite (run_script_from_try args Hparse).
  destruct (isinstance e OSError_ || isinstance e ValueError_);
    destruct H as [_ ->]; reflexivity.
Qed.

(** What [load_config] raises, the protected block raises. *)
Lemma main_body_load_raises args st e st1 :
  ~ below_minimum (version_info w) ->
  load_config (config args) w
    (emit (LogCall DEBUG "All requirements satisfied" []
             (enabled (root_level st) DEBUG)) (bump st)) = (Raise e, st1) ->
  main_body args w st = (Raise e, st1).
Proof.
  intros Hver Hload. unfold main_body.
  rewrite (bind_return _ _ _ _ _ _
             (check_requirements_supported w quiet st Hver)).
  simpl. apply bind_raise. exact Hload.
Qed.

(** X13.  An uninterrupted run whose arguments parse exits with status
    0 or 1, and with 0 exactly when the interpreter is supported and
    the configuration loads: a missing, unopenable or malformed file
    does not cost the run its success; a path [exists] cannot test, a
    file that is not UTF-8, a text the parser refuses for its size or a
    value without a length does. *)
Theorem exit_status_spec args :
  parse_tokens (argv w) (default_args w) false = Return args ->
  (fst (run script w) = Exited 0 \/ fst (run script w) = Exited 1)
  /\ (fst (run script w) = Exited 0
      <-> ~ below_minimum (version_info w)
          /\ config_loads w (config args) = true).
Proof.
  intros Hparse.
  assert (Hcases :
            (fst (run script w) = Exited 0
             /\ ~ below_minimum (version_info w)
             /\ config_loads w (config args) = true)
            \/ (fst (run script w) = Exited 1
                /\ (below_minimum (version_info w)
                    \/ config_loads w (config args) = false))).
  { destruct (tuple_ltb (as_tuple (version_info w)) [CInt 3; CInt 8])
      as [[|]|] eqn:Hv.
    - apply version_test_below in Hv. right.
      rewrite (status_too_old args Hparse Hv). auto.
    - apply version_test_supported in Hv.
      destruct (config_loads w (config args)) eqn:Hconf.
      + left. destruct (main_body_completes args (at_try args) Hv Hconf)
          as (st' & Hbody).
        rewrite (run_script_status args 0 st' Hparse
                   (try_return _ _ _ _ _ _ Hbody)).
        auto.
      + right. split; [|auto]. unfold config_loads in Hconf.
        destruct (files w (config args)) as [| | |content|k] eqn:Hf;
          try discriminate.
        -- destruct (utf8_error content) as [pos|] eqn:Hutf.
           ++ exact (status_undecodable args content pos Hparse Hv Hf Hutf).
           ++ destruct (json_loads w content) as [v|msg pos|r msg] eqn:Hjson;
                [|discriminate|].
              ** exact (status_unsized args content v Hparse Hv Hf Hutf Hjson
                          Hconf).
              ** eapply status_error; [exact Hparse|].
                 apply (main_body_load_raises args _ _ _ Hv).
                 exact (load_config_refused w quiet _ content r msg _
                          Hf Hutf Hjson).
        -- eapply status_error; [exact Hparse|].
           apply (main_body_load_raises args _ _ _ Hv).
           exact (load_config_exists_raises w quiet _ k _ Hf Hconf).
    - rewrite version_test in Hv. discriminate. }
  split.
  - destruct Hcases as [(H & _) | (H & _)]; auto.
  - split.
    + intros H0. destruct Hcases as [(_ & H) | (H1 & _)]; trivial.
      rewrite H1 in H0. discriminate.
    + intros (Hv & Hconf). destruct Hcases as [(H & _) | (_ & [H | H])];
        trivial; [contradiction | congruence].
Qed.

End Outcomes.

(** * Further properties of the handlers of [main] *)

Lemma not_exception_not_recognized e :
  isinstance e Exception_ = false ->
  isinstance e OSError_ = false /\ isinstance e ValueError_ = false.
Proof.
  unfold isinstance. intros H. split.
  - destruct (issubclass (class_of e) OSError_) eqn:E; trivial.
    apply oserror_is_exception in E. congruence.
  - destruct (issubclass (class_of e) ValueError_) eqn:E; trivial.
    apply valueerror_is_exception in E. congruence.
Qed.

(** X18.  An exception that is neither an error nor a user interrupt
    ([SystemExit], [GeneratorExit] and their subclasses) matches none
    of the three [except] clauses of [main]: whatever protected block
    raises it, it leaves [main] unchanged, with nothing logged and no
    traceback printed by [main]. *)
Theorem main_try_passes_exits args (body : M Z) w st e st1 :
  body w st = (Raise e, st1) ->
  isinstance e Exception_ = false ->
  isinstance e KeyboardInterrupt_ = false ->
  main_try args body w st = (Raise e, st1).
Proof.
  intros Hbody Herr Hki.
  destruct (not_exception_not_recognized e Herr) as [Hos Hval].
  unfold main_try. rewrite (try_raise _ _ _ _ _ _ Hbody).
  cbn [main_handlers dispatch]. unfold catches. cbn [fst existsb].
  rewrite Hki, Hos, Hval, Herr. reflexivity.
Qed.

Lemma main_body_returns args w st status st' :
  main_body args w st = (Return status, st') -> status = 0 \/ status = 1.
Proof.
  unfold main_body. intros H.
  apply bind_inv_return in H. destruct H as (ok & st1 & _ & H).
  destruct ok; simpl in H.
  - apply bind_inv_return in H. destruct H as (v & st2 & _ & H).
    apply bind_inv_return in H. destruct H as (n & st3 & _ & H).
    apply bind_inv_return in H. destruct H as (_ & st4 & _ & H).
    apply bind_inv_return in H. destruct H as (_ & st5 & _ & H).
    apply bind_inv_return in H. destruct H as (_ & st6 & _ & H).
    apply bind_inv_return in H. destruct H as (_ & st7 & _ & H).
    injection H as <- _. auto.
  - apply bind_inv_return in H. destruct H as (_ & st2 & _ & H).
    injection H as <- _. auto.
Qed.

(** X19.  [main] returns nothing but 0, 1 or 130, and 130 only in a run
    the user interrupts. *)
Theorem main_return_values w st status st' :
  main w st = (Return status, st') ->
  (status = 0 \/ status = 1 \/ status = 130)
  /\ (interrupt w = None -> status <> 130).
Proof.
  intros H. rewrite main_prelude in H.
  apply bind_inv_return in H. destruct H as (args & st1 & _ & H).
  unfold main_try in H. apply try_inv in H.
  destruct H as [(a & H & Ha) | (e & st2 & Hbody & H)].
  - injection Ha as <-. apply main_body_returns in H.
    split; [tauto|]. intros _. destruct H as [-> | ->]; discriminate.
  - cbn [main_handlers dispatch] in H. unfold catches in H.
    cbn [fst snd existsb] in H.
    destruct (isinstance e KeyboardInterrupt_) eqn:Hki.
    + simpl in H.
      apply bind_inv_return in H. destruct H as (_ & st3 & _ & H).
      injection H as <- _. split; [tauto|].
      intros Hq. pose proof (raises_errors_main_body args _ _ _ _ Hq Hbody) as He.
      apply exception_not_interrupt in He. unfold isinstance in Hki.
      congruence.
    + simpl in H.
      destruct (isinstance e OSError_ || (isinstance e ValueError_ || false)).
      * apply bind_inv_return in H. destruct H as (_ & st3 & _ & H).
        apply bind_inv_return in H. destruct H as (_ & st4 & _ & H).
        injection H as <- _. split; [tauto|]. discriminate.
      * exfalso. destruct (isinstance e Exception_ || false).
        -- revert H. apply bind_no_return. intros _ w1 s1 b1 s2.
           apply bind_no_return. intros _ w2 s3 b2 s4.
           apply raise_no_return.
        -- revert H. apply raise_no_return.
Qed.

(** * Further properties of interrupted runs *)

Lemma interruptible_dispatch_any {A} (hs : list (handler A)) e :
  Forall (fun h => forall e', interruptible (snd h e')) hs ->
  interruptible (dispatch hs e).
Proof.
  induction 1 as [|h hs Hh _ IH]; simpl.
  - apply interruptible_raise.
  - destruct (catches h e); [apply Hh | exact IH].
Qed.

Lemma interruptible_print_exc e : interruptible (print_exc e).
Proof. apply interruptible_call. reflexivity. Qed.

Lemma interruptible_sys_exit status : interruptible (sys_exit status).
Proof. apply interruptible_call. reflexivity. Qed.

Lemma interruptible_main_handlers args :
  Forall (fun h : handler Z => forall e, interruptible (snd h e))
         (main_handlers args).
Proof.
  repeat (apply Forall_cons; [intros e; simpl|]); [| | |apply Forall_nil].
  - apply interruptible_bind; [apply interruptible_log|]. intros _.
    apply interruptible_ret.
  - apply interruptible_bind; [apply interruptible_log|]. intros _.
    apply interruptible_bind.
    { apply interruptible_when, interruptible_print_exc. }
    intros _. apply interruptible_ret.
  - apply interruptible_bind; [apply interruptible_log|]. intros _.
    apply interruptible_bind.
    { apply interruptible_when, interruptible_print_exc. }
    intros _. apply interruptible_raise.
Qed.

(** The script, seen from the end of its prelude. *)
Lemma script_prelude w st :
  script w st
  = (args <- prelude ;; exit_with (main_try args (main_body args))) w st.
Proof.
  unfold script, exit_with. unfold bind at 1. rewrite main_prelude.
  unfold bind. destruct (prelude w st) as [[args|e] st1]; reflexivity.
Qed.

(** From the [try] statement on, a delivered interrupt ends the program
    by [KeyboardInterrupt] or by [sys.exit(130)]. *)
Lemma main_try_interrupt args w st k r st' :
  interrupt w = Some k ->
  exit_with (main_try args (main_body args)) w st = (r, st') ->
  (ticks st <= k < ticks st')%nat ->
  r = Raise KeyboardInterrupt \/ r = Raise (SystemExit 130).
Proof.
  intros Hk Hrun Hrange. unfold exit_with in Hrun.
  pose proof (interruptible_main_body args) as Hbody_i.
  pose proof (fun e => interruptible_dispatch_any (main_handlers args) e
                         (interruptible_main_handlers args)) as Hdisp_i.
  apply bind_inv in Hrun.
  destruct Hrun as [(status & st2 & Htry & Hexit) | (e & Htry & ->)].
  - destruct (Nat.lt_ge_cases k (ticks st2)) as [Hlt | Hge].
    + right. unfold main_try in Htry. apply try_inv in Htry.
      destruct Htry as [(a & Hbody & _) | (e & st1 & Hbody & Hd)].
      * destruct (Hbody_i _ _ _ _ _ Hk Hbody) as [_ Hin].
        assert (Habs : Return a = Raise KeyboardInterrupt)
          by (apply Hin; lia).
        discriminate.
      * destruct (Hbody_i _ _ _ _ _ Hk Hbody) as [Hle1 Hin1].
        destruct (Nat.lt_ge_cases k (ticks st1)) as [Hlt1 | Hge1].
        -- assert (He : Raise (A:=Z) e = Raise KeyboardInterrupt)
             by (apply Hin1; lia).
           injection He as ->. simpl in Hd.
           rewrite (bind_return _ _ _ _ _ _
                      (log_past w k _ _ _ st1 Hk Hlt1)) in Hd.
           injection Hd as <- <-.
           unfold sys_exit, bind in Hexit.
           rewrite (tick_past w k _ Hk) in Hexit by (simpl; lia).
           injection Hexit as <- _. reflexivity.
        -- destruct (Hdisp_i e _ _ _ _ _ Hk Hd) as [_ Hin2].
           assert (Habs : Return status = Raise KeyboardInterrupt)
             by (apply Hin2; lia).
           discriminate.
    + left.
      exact (proj2 (interruptible_sys_exit status _ _ _ _ _ Hk Hexit)
               (conj Hge (proj2 Hrange))).
  - left. unfold main_try in Htry. apply try_inv in Htry.
    destruct Htry as [(a & _ & Habs) | (e1 & st1 & Hbody & Hd)];
      [discriminate|].
    destruct (Hbody_i _ _ _ _ _ Hk Hbody) as [Hle1 Hin1].
    destruct (Nat.lt_ge_cases k (ticks st1)) as [Hlt1 | Hge1].
    + assert (He : Raise (A:=Z) e1 = Raise KeyboardInterrupt)
        by (apply Hin1; lia).
      injection He as ->. simpl in Hd.
      rewrite (bind_return _ _ _ _ _ _ (log_past w k _ _ _ st1 Hk Hlt1)) in Hd.
      discriminate.
    + destruct (Hdisp_i e1 _ _ _ _ _ Hk Hd) as [_ Hin2].
      apply Hin2. lia.
Qed.

(** X21.  A user interrupt that is delivered at any point of a run is
    never lost: the script ends either by the [KeyboardInterrupt]
    itself, uncaught, or by [sys.exit(130)]; no delivered interrupt
    lets the run finish with status 0 or 1 of its own. *)
Theorem delivered_interrupt_ends_run w k r st' :
  interrupt w = Some k ->
  script w initial_state = (r, st') ->
  (k < ticks st')%nat ->
  r = Raise KeyboardInterrupt \/ r = Raise (SystemExit 130).
Proof.
  intros Hk Hrun Hdelivered. rewrite script_prelude in Hrun.
  apply bind_inv in Hrun.
  destruct Hrun as [(args & st1 & Hpre & Hrest) | (e & Hpre & ->)].
  - destruct (interruptible_prelude _ _ _ _ _ Hk Hpre) as [_ Hin].
    destruct (Nat.lt_ge_cases k (ticks st1)) as [Hlt | Hge].
    + assert (Habs : Return args = Raise KeyboardInterrupt)
        by (apply Hin; simpl; lia).
      discriminate.
    + apply (main_try_interrupt args w st1 k r st' Hk Hrest). lia.
  - left. destruct (interruptible_prelude _ _ _ _ _ Hk Hpre) as [_ Hin].
    assert (He : Raise (A:=Args) e = Raise KeyboardInterrupt)
      by (apply Hin; simpl; lia).
    injection He as ->. reflexivity.
Qed.

(** X20.  An interrupt that arrives during one of the first three calls
    of a run (argument parsing, logging setup, the start message)
    finds [main] outside its [try] block: [main] raises
    [KeyboardInterrupt] and no handler of [main] runs.  The warning of
    the interrupt handler is not logged, and no logging call other than
    the start message has been made; no child process was started; the
    interpreter prints the traceback, and the process does not end
    through the script's status 130. *)
Theorem early_interrupt_escapes w k args :
  interrupt w = Some k ->
  (k < 3)%nat ->
  parse_tokens (argv w) (default_args w) false = Return args ->
  fst (main w initial_state) = Raise KeyboardInterrupt
  /\ ~ In (WARNING, "Script interrupted by user", [])
          (log_calls (trace (snd (run script w))))
  /\ (forall call,
        In call (log_calls (trace (snd (run script w)))) ->
        call = (INFO, "Starting {{SCRIPT_NAME}}", []))
  /\ spawned (trace (snd (run script w))) = []
  /\ In (Traceback KeyboardInterrupt) (trace (snd (run script w)))
  /\ fst (run script w) <> Exited 130.
Proof.
  intros Hk Hlt Hparse.
  assert (Hmain : exists st',
             main w initial_state = (Raise KeyboardInterrupt, st')
             /\ trace st' = []).
  { unfold main, parse_args, setup_logging, basicConfig, log, bind, tick.
    fold (default_args w). rewrite Hk.
    destruct k as [|[|[|k]]]; [| | |lia]; simpl; rewrite ?Hparse; simpl;
      eexists; split; reflexivity. }
  destruct Hmain as (st' & Hmain & Htrace).
  rewrite Hmain. split; [reflexivity|].
  unfold run, finish, script, exit_with.
  rewrite (bind_raise _ _ _ _ _ _ Hmain).
  unfold interpreter_exit. cbn [fst snd].
  assert (Hfinal : trace (emit (Traceback KeyboardInterrupt) st')
                   = [Traceback KeyboardInterrupt])
    by (simpl; rewrite Htrace; reflexivity).
  rewrite Hfinal. repeat split.
  - intros [].
  - intros call [].
  - left. reflexivity.
  - destruct (tuple_ltb (as_tuple (version_info w)) [CInt 3; CInt 8])
      as [[|]|]; discriminate.
Qed.

(** * The logging threshold during a run *)

Lemma filtered_at_app l evs1 evs2 :
  filtered_at l evs1 -> filtered_at l evs2 -> filtered_at l (evs1 ++ evs2).
Proof. unfold filtered_at. intros H1 H2. apply Forall_app. auto. Qed.

(** A step that touches neither the logging configuration nor the
    trace. *)
Lemma steady_silent {A} (m : M A) :
  (forall w st,
      root_level (snd (m w st)) = root_level st
      /\ root_configured (snd (m w st)) = root_configured st
      /\ trace (snd (m w st)) = trace st) ->
  steady m.
Proof.
  intros Hm w st r st' H. destruct (Hm w st) as (Hl & Hc & Ht).
  rewrite H in Hl, Hc, Ht. simpl in Hl, Hc, Ht.
  repeat split; trivial.
  exists []. rewrite app_nil_r. split; [exact Ht | constructor].
Qed.

Lemma steady_ret {A} (a : A) : steady (ret a).
Proof. apply steady_silent. intros; repeat split. Qed.

Lemma steady_raise {A} (e : exn) : steady (@raise A e).
Proof. apply steady_silent. intros; repeat split. Qed.

Lemma steady_tick : steady tick.
Proof.
  apply steady_silent. intros w st. unfold tick.
  destruct (interrupt w) as [k|]; [destruct (Nat.eqb k (ticks st))|];
    repeat split.
Qed.

Lemma tick_trace w st (r : result unit) st' :
  tick w st = (r, st') -> trace st' = trace st.
Proof.
  unfold tick. destruct (interrupt w) as [k|];
    [destruct (Nat.eqb k (ticks st))|]; intros H; injection H as _ <-;
    reflexivity.
Qed.

Lemma steady_bind {A B} (m : M A) (f : A -> M B) :
  steady m -> (forall a, steady (f a)) -> steady (bind m f).
Proof.
  intros Hm Hf w st r st' H.
  apply bind_inv in H. destruct H as [(a & st1 & H1 & H2) | (e & H1 & _)].
  - destruct (Hm _ _ _ _ H1) as (Hl1 & Hc1 & evs1 & Ht1 & Hf1).
    destruct (Hf a _ _ _ _ H2) as (Hl2 & Hc2 & evs2 & Ht2 & Hf2).
    split; [congruence|]. split; [congruence|].
    exists (evs1 ++ evs2)%list. split.
    + rewrite Ht2, Ht1, app_assoc. reflexivity.
    + apply filtered_at_app; trivial. rewrite <- Hl1. exact Hf2.
  - exact (Hm _ _ _ _ H1).
Qed.

Lemma steady_dispatch {A} (hs : list (handler A)) e :
  Forall (fun h => forall e', steady (snd h e')) hs ->
  steady (dispatch hs e).
Proof.
  induction 1 as [|h hs Hh _ IH]; simpl.
  - apply steady_raise.
  - destruct (catches h e); [apply Hh | exact IH].
Qed.

Lemma steady_try {A} (body : M A) (hs : list (handler A)) :
  steady body ->
  Forall (fun h => forall e, steady (snd h e)) hs ->
  steady (try_except body hs).
Proof.
  intros Hbody Hhs w st r st' H.
  apply try_inv in H. destruct H as [(a & H & _) | (e & st1 & H1 & H2)].
  - exact (Hbody _ _ _ _ H).
  - destruct (Hbody _ _ _ _ H1) as (Hl1 & Hc1 & evs1 & Ht1 & Hf1).
    destruct (steady_dispatch hs e Hhs _ _ _ _ H2)
      as (Hl2 & Hc2 & evs2 & Ht2 & Hf2).
    split; [congruence|]. split; [congruence|].
    exists (evs1 ++ evs2)%list. split.
    + rewrite Ht2, Ht1, app_assoc. reflexivity.
    + apply filtered_at_app; trivial. rewrite <- Hl1. exact Hf2.
Qed.

Lemma steady_call {A} (f : M A) :
  (forall w st,
      root_level (snd (f w st)) = root_level st
      /\ root_configured (snd (f w st)) = root_configured st
      /\ trace (snd (f w st)) = trace st) ->
  steady (tick ;; f).
Proof.
  intros Hf. apply steady_bind; [apply steady_tick|].
  intros _. apply steady_silent. exact Hf.
Qed.

Lemma steady_log lvl fmt args : steady (log lvl fmt args).
Proof.
  apply steady_bind; [apply steady_tick|].
  intros _ w st r st' H. injection H as _ <-. simpl.
  repeat split. eexists. split; [reflexivity|].
  repeat constructor.
Qed.

Lemma steady_print_exc e : steady (print_exc e).
Proof.
  apply steady_bind; [apply steady_tick|].
  intros _ w st r st' H. injection H as _ <-. simpl.
  repeat split. eexists. split; [reflexivity|].
  repeat constructor.
Qed.

Lemma steady_when b (m : M unit) : steady m -> steady (when b m).
Proof. destruct b; trivial. intros _. apply steady_ret. Qed.

Lemma steady_check_requirements : steady check_requirements.
Proof.
  apply steady_bind.
  - apply steady_silent. intros w st. unfold version_info_lt.
    destruct (tuple_ltb _ _); repeat split.
  - intros [|]; (apply steady_bind;
                 [apply steady_log | intros; apply steady_ret]).
Qed.

Lemma steady_load_config p : steady (load_config p).
Proof.
  apply steady_bind.
  { apply steady_call. intros w st. destruct (files w p) as [| | | |k]; try (repeat split);
    destruct (ignored k); repeat split. }
  intros [|]; simpl.
  - apply steady_try.
    + apply steady_bind.
      { apply steady_call. intros w st. destruct (files w p) as [| | | |k]; try (repeat split);
    destruct (ignored k); repeat split. }
      intros f. apply steady_bind.
      { apply steady_call. intros w st.
        destruct (utf8_error f); [repeat split|].
        destruct (json_loads w f); repeat split. }
      intros v.
      apply steady_bind; [apply steady_log|]. intros _. apply steady_ret.
    + repeat (apply Forall_cons;
              [intros e; apply steady_bind;
               [apply steady_log | intros; apply steady_ret]|]).
      apply Forall_nil.
  - apply steady_bind; [apply steady_log|]. intros _. apply steady_ret.
Qed.

Lemma steady_py_len v : steady (py_len v).
Proof.
  destruct v; simpl; first [apply steady_ret | apply steady_raise].
Qed.

Lemma steady_main_body args : steady (main_body args).
Proof.
  apply steady_bind; [apply steady_check_requirements|].
  intros [|]; simpl.
  - apply steady_bind; [apply steady_load_config|]. intros v.
    apply steady_bind; [apply steady_py_len|]. intros n.
    apply steady_bind; [apply steady_log|]. intros _.
    apply steady_bind.
    { apply steady_when, steady_log. }
    intros _.
    apply steady_bind; [apply steady_log|]. intros _.
    apply steady_bind; [apply steady_log|]. intros _.
    apply steady_ret.
  - apply steady_bind; [apply steady_log|]. intros _. apply steady_ret.
Qed.

Lemma steady_main_handlers args :
  Forall (fun h : handler Z => forall e, steady (snd h e))
         (main_handlers args).
Proof.
  repeat (apply Forall_cons; [intros e; simpl|]); [| | |apply Forall_nil].
  - apply steady_bind; [apply steady_log|]. intros _. apply steady_ret.
  - apply steady_bind; [apply steady_log|]. intros _.
    apply steady_bind.
    { apply steady_when, steady_print_exc. }
    intros _. apply steady_ret.
  - apply steady_bind; [apply steady_log|]. intros _.
    apply steady_bind.
    { apply steady_when, steady_print_exc. }
    intros _. apply steady_raise.
Qed.

(** Everything from the start message to [sys.exit]. *)
Lemma steady_after_setup args :
  steady (exit_with (log INFO "Starting {{SCRIPT_NAME}}" [] ;;
                     main_try args (main_body args))).
Proof.
  apply steady_bind.
  - apply steady_bind; [apply steady_log|]. intros _.
    apply steady_try;
      [apply steady_main_body | apply steady_main_handlers].
  - intros status. apply steady_call. intros; repeat split.
Qed.

Lemma script_after_setup w st :
  script w st
  = (args <- parse_args ;;
     setup_logging (verbose args) ;;
     exit_with (log INFO "Starting {{SCRIPT_NAME}}" [] ;;
                main_try args (main_body args))) w st.
Proof.
  unfold script, exit_with, main, bind.
  destruct (parse_args w st) as [[args|e] st1]; trivial.
  destruct (setup_logging (verbose args) w st1) as [[[]|e] st2]; trivial.
Qed.

(** X22.  The verbosity flag decides what a run writes, from the first
    message to the last: in every run whose arguments parse, finished
    or interrupted, each logging call is written exactly when its level
    reaches [DEBUG] under [--verbose] and [INFO] without it.  Debug
    messages appear only under [--verbose]; no [INFO], [WARNING] or
    [ERROR] message is ever dropped. *)
Theorem verbosity_decides_output w args :
  parse_tokens (argv w) (default_args w) false = Return args ->
  filtered_at (threshold args) (trace (snd (run script w))).
Proof.
  intros Hparse.
  assert (Hexit : forall r st,
             filtered_at (threshold args) (trace st) ->
             filtered_at (threshold args)
               (trace (snd (interpreter_exit w r st)))).
  { intros r st H. destruct r as [a|e]; trivial.
    destruct e; unfold interpreter_exit; cbn [snd]; trivial;
      simpl; apply filtered_at_app; trivial; repeat constructor. }
  unfold run, finish.
  destruct (script w initial_state) as [r st] eqn:Hrun.
  apply Hexit. clear Hexit.
  rewrite script_after_setup in Hrun.
  apply bind_inv in Hrun.
  destruct Hrun as [(args' & st1 & Hargs & Hrun) | (e & Hargs & _)].
  2:{ unfold parse_args in Hargs. apply bind_inv in Hargs.
      destruct Hargs as [([] & st1 & Htick & H) | (e' & Htick & _)].
      - injection H as _ <-. rewrite (tick_trace _ _ _ _ Htick).
        constructor.
      - rewrite (tick_trace _ _ _ _ Htick). constructor. }
  unfold parse_args in Hargs. apply bind_inv_return in Hargs.
  destruct Hargs as ([] & st0 & Htick & Hargs).
  fold (default_args w) in Hargs. rewrite Hparse in Hargs.
  injection Hargs as <- <-.
  destruct (steady_tick _ _ _ _ Htick) as (_ & Hc0 & _).
  pose proof (tick_trace _ _ _ _ Htick) as Hnil. simpl in Hnil.
  apply bind_inv in Hrun.
  destruct Hrun as [([] & st2 & Hsetup & Hrun) | (e & Hsetup & _)].
  2:{ unfold setup_logging, basicConfig in Hsetup. apply bind_inv in Hsetup.
      destruct Hsetup as [([] & st2 & Htick2 & H) | (e' & Htick2 & _)].
      - destruct (root_configured st2); discriminate.
      - rewrite (tick_trace _ _ _ _ Htick2), Hnil. constructor. }
  unfold setup_logging, basicConfig in Hsetup. apply bind_inv_return in Hsetup.
  destruct Hsetup as ([] & st1' & Htick2 & Hsetup).
  destruct (steady_tick _ _ _ _ Htick2) as (_ & Hc1 & _).
  pose proof (tick_trace _ _ _ _ Htick2) as Hnil1. rewrite Hnil in Hnil1.
  assert (Hfresh : root_configured st1' = false)
    by (rewrite Hc1, Hc0; reflexivity).
  rewrite Hfresh in Hsetup. injection Hsetup as <-.
  destruct (steady_after_setup args _ _ _ _ Hrun)
    as (_ & _ & evs & -> & Hf).
  simpl. rewrite Hnil1. simpl. exact Hf.
Qed.

(** * Errors in a run *)

(** C2.  In an uninterrupted run of the script whose arguments parse,
    whatever the statements inside [try:] raise is an error, and [main]
    handles it by class.  An [OSError] or a [ValueError] is logged at
    error level as handled, [main] returns 1 and the process exits with
    status 1 without a traceback from the interpreter.  Any other error
    is logged at error level as unexpected and raised again by [main]:
    the interpreter prints the traceback and the process ends with
    status 1.  In both cases the record is written, and the handler
    itself prints the traceback exactly under [--verbose]. *)
Theorem main_error_handling w args e st1 :
  interrupt w = None ->
  parse_tokens (argv w) (default_args w) false = Return args ->
  main_body args w (at_try args) = (Raise e, st1) ->
  isinstance e Exception_ = true
  /\ exists st2,
       trace st2
       = (trace st1 ++
          LogCall ERROR
            (if isinstance e OSError_ || isinstance e ValueError_
             then "Handled error: %s" else "Unexpected error: %s")
            [AExn e] true
          :: (if verbose args then [PrintExc e] else []))%list
       /\ if isinstance e OSError_ || isinstance e ValueError_ then
            main w initial_state = (Return 1, st2)
            /\ run script w = (Exited 1, bump st2)
          else
            main w initial_state = (Raise e, st2)
            /\ run script w = (Exited 1, emit (Traceback e) st2).
Proof.
  intros quiet Hparse Hbody.
  pose proof (raises_errors_main_body args _ _ _ _ quiet Hbody) as Herr.
  split; [exact Herr|].
  destruct (steady_main_body args _ _ _ _ Hbody) as (Hlevel & _).
  destruct (main_try_handles w quiet args (main_body args) (at_try args)
              st1 e Hbody Herr) as (st2 & Htrace & H).
  assert (Hen : enabled (root_level st1) ERROR = true).
  { rewrite Hlevel. unfold at_try. cbn [root_level].
    destruct (verbose args); reflexivity. }
  rewrite Hen in Htrace. unfold printed in Htrace.
  assert (Hmain : main w initial_state
                  = main_try args (main_body args) w (at_try args)).
  { rewrite main_prelude.
    rewrite (bind_return _ _ _ _ _ _ (prelude_quiet w quiet args Hparse)).
    reflexivity. }
  exists st2. split; [exact Htrace|].
  rewrite (run_script_from_try w quiet args Hparse), Hmain.
  exact H.
Qed.

(** A configuration file that is not UTF-8 gives a handled error, one
    holding a number an unexpected one. *)
Lemma main_error_handling_witness :
  (exists st2,
     trace st2
     = [ LogCall INFO "Starting {{SCRIPT_NAME}}" [] true;
         LogCall DEBUG "All requirements satisfied" [] false;
         LogCall ERROR "Handled error: %s"
           [AExn (UnicodeDecodeError "utf-8" 0)] true ]
     /\ main latin1_world initial_state = (Return 1, st2)
     /\ run script latin1_world = (Exited 1, bump st2))
  /\ (exists st2,
        trace st2
        = [ LogCall INFO "Starting {{SCRIPT_NAME}}" [] true;
            LogCall DEBUG "All requirements satisfied" [] false;
            LogCall DEBUG "Loaded configuration from %s"
              [APath ["settings.json"]] false;
            LogCall ERROR "Unexpected error: %s"
              [AExn (TypeError "object of type 'int' has no len()")] true ]
        /\ main (config_world "42") initial_state
           = (Raise (TypeError "object of type 'int' has no len()"), st2)
        /\ run script (config_world "42")
           = (Exited 1,
              emit (Traceback (TypeError "object of type 'int' has no len()"))
                st2)).
Proof.
  split.
  - exact (proj2 (main_error_handling latin1_world config_args
                    (UnicodeDecodeError "utf-8" 0)
                    (snd (main_body config_args latin1_world
                            (at_try config_args)))
                    eq_refl eq_refl eq_refl)).
  - exact (proj2 (main_error_handling (config_world "42") config_args
                    (TypeError "object of type 'int' has no len()")
                    (snd (main_body config_args (config_world "42")
                            (at_try config_args)))
                    eq_refl eq_refl eq_refl)).
Defined.

(** * The further properties at sample worlds *)

Lemma load_config_missing_file_witness :
  exists st',
    load_config ["missing.json"] plain_world initial_state
    = (Return empty_dict, st')
    /\ ticks st' = 2%nat
    /\ trace st'
       = [LogCall WARNING "Configuration file %s not found, using defaults"
            [APath ["missing.json"]] true]
    /\ root_level st' = WARNING.
Proof.
  exact (load_config_missing_file plain_world eq_refl ["missing.json"]
           initial_state eq_refl).
Defined.

Lemma load_config_unopenable_witness :
  exists k st',
    load_config ["etc"] (sample_world py3_11 [] (one_file ["etc"] Directory) None)
      initial_state = (Return empty_dict, st')
    /\ (k = EISDIR \/ k = EACCES)
    /\ trace st'
       = [LogCall ERROR "Error reading configuration file %s: %s"
            [APath ["etc"]; AExn (OSError k ["etc"])] true].
Proof.
  apply (load_config_unopenable
           (sample_world py3_11 [] (one_file ["etc"] Directory) None) eq_refl
           ["etc"] initial_state).
  left. reflexivity.
Defined.

Lemma load_config_malformed_json_witness :
  exists st',
    load_config ["settings.json"] (config_world "not json") initial_state
    = (Return empty_dict, st')
    /\ log_calls (trace st')
       = [(ERROR, "Invalid JSON in configuration file %s: %s",
           [APath ["settings.json"];
            AExn (JSONDecodeError "Expecting value" 0)])]
    /\ root_level st' = WARNING.
Proof.
  exact (load_config_malformed_json (config_world "not json") eq_refl
           ["settings.json"] "not json" "Expecting value" 0%nat initial_state
           eq_refl eq_refl eq_refl).
Defined.


Lemma load_config_returns_parsed_or_empty_witness :
  PList [PInt 1; PInt 2] = empty_dict
  \/ exists content,
       files (config_world "[1, 2]") ["settings.json"] = Regular content
       /\ utf8_error content = None
       /\ json_loads (config_world "[1, 2]") content
          = Parsed (PList [PInt 1; PInt 2]).
Proof.
  eapply (load_config_returns_parsed_or_empty (config_world "[1, 2]") eq_refl
            ["settings.json"] initial_state).
  reflexivity.
Defined.

Lemma run_command_success_witness :
  exists st',
    run_command ["true"] None plain_world initial_state
    = (Return {| cp_args := ["true"]; cp_returncode := 0;
                 cp_stdout := ""; cp_stderr := "" |}, st')
    /\ trace st'
       = [ LogCall DEBUG "Running command: %s" [AStr "true"] false;
           SubprocessRun ["true"] None;
           LogCall DEBUG "Command output: %s" [AStr ""] false ].
Proof.
  exact (run_command_success plain_world eq_refl ["true"] None initial_state
           "" "" eq_refl eq_refl eq_refl).
Defined.

Lemma run_command_cannot_start_witness :
  exists st',
    run_command ["nonexistent"; "--flag"] None bare_world initial_state
    = (Raise (OSError ENOENT ["nonexistent"]), st')
    /\ trace st'
       = [ LogCall DEBUG "Running command: %s" [AStr "nonexistent --flag"]
             false;
           SubprocessRun ["nonexistent"; "--flag"] None ].
Proof.
  exact (run_command_cannot_start bare_world eq_refl
           ["nonexistent"; "--flag"] None initial_state ENOENT eq_refl).
Defined.

Lemma run_command_spawns_once_witness :
  exists l,
    spawned (trace (snd (run_command ["false"] None plain_world initial_state)))
    = ([] ++ l)%list
    /\ (l = [] \/ l = [["false"]])
    /\ (interrupt plain_world = None -> l = [["false"]]).
Proof.
  eapply (run_command_spawns_once ["false"] None plain_world initial_state).
  reflexivity.
Defined.

Lemma run_command_interrupt_witness :
  fst (run_command ["true"] None (interrupted_world py3_11 1) initial_state)
  = Raise KeyboardInterrupt.
Proof.
  eapply (run_command_interrupt ["true"] None (interrupted_world py3_11 1)
            initial_state 1).
  - reflexivity.
  - reflexivity.
  - simpl. lia.
Defined.

Lemma setup_logging_first_wins_witness :
  exists st',
    (setup_logging true ;; setup_logging false) plain_world initial_state
    = (Return tt, st')
    /\ root_level st' = DEBUG
    /\ root_configured st' = true
    /\ trace st' = [].
Proof.
  exact (setup_logging_first_wins plain_world eq_refl true false
           initial_state eq_refl).
Defined.

Lemma parse_args_spec_witness :
  parse_args
    (options_world [FlagDryRun; OptConfig ["a.json"]; FlagVerbose;
                    FlagDryRun; OptConfig ["b.json"]]) initial_state
  = (Return {| verbose := true; dry_run := true; config := ["b.json"] |},
     bump initial_state).
Proof.
  apply (parse_args_spec
           (options_world [FlagDryRun; OptConfig ["a.json"]; FlagVerbose;
                           FlagDryRun; OptConfig ["b.json"]])
           eq_refl initial_state).
  reflexivity.
Defined.

Lemma rejected_arguments_exit_early_witness :
  exists status,
    (status = 0 \/ status = 2)
    /\ run script (options_world [FlagVerbose; Unrecognized "--frobnicate"])
       = (Exited status, bump initial_state).
Proof.
  apply (rejected_arguments_exit_early
           (options_world [FlagVerbose; Unrecognized "--frobnicate"]) eq_refl).
  reflexivity.
Defined.

Lemma exit_status_spec_witness :
  fst (run script plain_world) = Exited 0
  /\ fst (run script latin1_world) <> Exited 0.
Proof.
  split.
  - apply (exit_status_spec plain_world eq_refl (default_args plain_world)
             eq_refl).
    split; [|reflexivity]. unfold below_minimum. simpl. lia.
  - intros H.
    apply (exit_status_spec latin1_world eq_refl config_args eq_refl) in H.
    destruct H as [_ H]. discriminate.
Defined.

Lemma old_interpreter_run_witness :
  exists st,
    run script (dry_run_world py3_7) = (Exited 1, st)
    /\ trace st
       = [ LogCall INFO "Starting {{SCRIPT_NAME}}" [] true;
           LogCall ERROR "Python 3.8 or higher is required" [] true;
           LogCall ERROR "Requirements check failed" [] true ].
Proof.
  apply (old_interpreter_run (dry_run_world py3_7) eq_refl
           {| verbose := false; dry_run := true;
              config := default_config (dry_run_world py3_7) |} eq_refl).
  unfold below_minimum. simpl. lia.
Defined.

Lemma unsized_config_crashes_witness :
  exists st,
    run script (config_world "42") = (Exited 1, st)
    /\ trace st
       = [ LogCall INFO "Starting {{SCRIPT_NAME}}" [] true;
           LogCall DEBUG "All requirements satisfied" [] false;
           LogCall DEBUG "Loaded configuration from %s"
             [APath ["settings.json"]] false;
           LogCall ERROR "Unexpected error: %s"
             [AExn (TypeError "object of type 'int' has no len()")] true;
           Traceback (TypeError "object of type 'int' has no len()") ].
Proof.
  apply (unsized_config_crashes (config_world "42") eq_refl config_args
           "42" (PInt 42) eq_refl); try reflexivity.
  unfold below_minimum. simpl. lia.
Defined.

Lemma undecodable_config_run_witness :
  exists st,
    run script latin1_world = (Exited 1, st)
    /\ trace st
       = [ LogCall INFO "Starting {{SCRIPT_NAME}}" [] true;
           LogCall DEBUG "All requirements satisfied" [] false;
           LogCall ERROR "Handled error: %s"
             [AExn (UnicodeDecodeError "utf-8" 0)] true ].
Proof.
  apply (undecodable_config_run latin1_world eq_refl config_args
           (String (ascii_of_nat 255) "") 0%nat eq_refl); try reflexivity.
  unfold below_minimum. simpl. lia.
Defined.

Lemma completed_run_witness :
  exists st,
    run script (options_world [FlagVerbose; FlagDryRun]) = (Exited 0, st)
    /\ trace st
       = [ LogCall INFO "Starting {{SCRIPT_NAME}}" [] true;
           LogCall DEBUG "All requirements satisfied" [] true;
           LogCall WARNING "Configuration file %s not found, using defaults"
             [APath ["home"; "user"; ".config"; "{{SCRIPT_NAME}}.json"]] true;
           LogCall DEBUG "Loaded config with %d entries" [AInt 0] true;
           LogCall INFO "DRY RUN MODE - No changes will be made" [] true;
           LogCall INFO "Script logic not yet implemented" [] true;
           LogCall INFO "{{SCRIPT_NAME}} completed successfully" [] true ].
Proof.
  apply (completed_run (options_world [FlagVerbose; FlagDryRun]) eq_refl
           {| verbose := true; dry_run := true;
              config := default_config
                          (options_world [FlagVerbose; FlagDryRun]) |}
           eq_refl); try reflexivity.
  unfold below_minimum. simpl. lia.
Defined.

Lemma main_try_passes_exits_witness :
  main_try config_args (raise (SystemExit 3)) plain_world initial_state
  = (Raise (SystemExit 3), initial_state).
Proof.
  apply (main_try_passes_exits config_args (raise (SystemExit 3)) plain_world
           initial_state (SystemExit 3) initial_state); reflexivity.
Defined.

Lemma main_return_values_witness :
  ((0 = 0 \/ 0 = 1 \/ 0 = 130) /\ (interrupt plain_world = None -> 0 <> 130))
  /\ ((130 = 0 \/ 130 = 1 \/ 130 = 130)
      /\ (interrupt (interrupted_world py3_11 4) = None -> 130 <> 130)).
Proof.
  split.
  - eapply (main_return_values plain_world initial_state 0). reflexivity.
  - eapply (main_return_values (interrupted_world py3_11 4) initial_state 130).
    reflexivity.
Defined.

Lemma early_interrupt_escapes_witness :
  fst (main (interrupted_world py3_11 2) initial_state)
  = Raise KeyboardInterrupt
  /\ ~ In (WARNING, "Script interrupted by user", [])
          (log_calls (trace (snd (run script (interrupted_world py3_11 2)))))
  /\ (forall call,
        In call
          (log_calls (trace (snd (run script (interrupted_world py3_11 2)))))
        -> call = (INFO, "Starting {{SCRIPT_NAME}}", []))
  /\ spawned (trace (snd (run script (interrupted_world py3_11 2)))) = []
  /\ In (Traceback KeyboardInterrupt)
        (trace (snd (run script (interrupted_world py3_11 2))))
  /\ fst (run script (interrupted_world py3_11 2)) <> Exited 130.
Proof.
  apply (early_interrupt_escapes (interrupted_world py3_11 2) 2
           (default_args (interrupted_world py3_11 2)) eq_refl).
  - lia.
  - reflexivity.
Defined.

Lemma delivered_interrupt_ends_run_witness :
  (fst (script (interrupted_world py3_11 4) initial_state)
   = Raise KeyboardInterrupt
   \/ fst (script (interrupted_world py3_11 4) initial_state)
      = Raise (SystemExit 130))
  /\ (fst (script (interrupted_config_world (String (ascii_of_nat 255) "") 7)
             initial_state) = Raise KeyboardInterrupt
      \/ fst (script (interrupted_config_world (String (ascii_of_nat 255) "") 7)
                initial_state) = Raise (SystemExit 130)).
Proof.
  split.
  - eapply (delivered_interrupt_ends_run (interrupted_world py3_11 4) 4).
    + reflexivity.
    + reflexivity.
    + simpl. lia.
  - eapply (delivered_interrupt_ends_run
              (interrupted_config_world (String (ascii_of_nat 255) "") 7) 7).
    + reflexivity.
    + reflexivity.
    + simpl. lia.
Defined.

Lemma verbosity_decides_output_witness :
  filtered_at DEBUG (trace (snd (run script (options_world [FlagVerbose]))))
  /\ filtered_at INFO (trace (snd (run script plain_world))).
Proof.
  split.
  - exact (verbosity_decides_output (options_world [FlagVerbose])
             {| verbose := true; dry_run := false;
                config := default_config (options_world [FlagVerbose]) |}
             eq_refl).
  - exact (verbosity_decides_output plain_world (default_args plain_world)
             eq_refl).
Defined.
